(** * Proceedings volumes of the anthology: [bin/anthology/volumes.py]

    A shallow embedding of the [Volume] class.  Python objects live in a
    store and are handled through references, so that the aliasing the
    class relies on (a paper held by a volume's [content] and by its caller,
    the attribute dictionary of the front matter and its copy) is part of
    the model.  Methods are computations in a state-and-exception monad:
    an exception leaves the store as it was when it was raised. *)

From Stdlib Require Import String Ascii List Lia Bool.
From stdpp Require Import base option list gmap strings.

Local Open Scope string_scope.
#[local] Set Warnings "-clear-no-such-hyp".

(** ** Values, exceptions, objects *)

(** The exceptions the class can raise. *)
Inductive exn :=
| NameError (name : string)
| IndexError
| KeyError (key : string)
| TypeError
| AttributeError (name : string).

(** A str as an attribute holds it (a title, a name): its code points.
    Identifiers and keys, which the archive writes in ASCII, are
    [string]s. *)
Definition text : Type := list N.

Definition text_of_string (s : string) : text :=
  N_of_ascii <$> list_ascii_of_string s.

Coercion text_of_string : string >-> text.

(** What an attribute dictionary holds: a str, a collection of codes
    (venues, SIGs), or [None]. *)
Inductive value :=
| VNone
| VStr (s : text)
| VCodes (l : list string).

Abbreviation loc := nat (only parsing).
Abbreviation dict := (gmap string value) (only parsing).

(** [papers.Paper], as far as [Volume] uses it: only the interface of the
    class is known here. *)
Module Paper.
Record t := mk {
  paper_id : string;
  top_level_id : string;
  attrib : loc;
  parent_volume_id : option string
}.
Definition set_parent_volume_id (p : t) (v : option string) : t :=
  mk (paper_id p) (top_level_id p) (attrib p) v.
End Paper.

(** The instance attributes of a [Volume]; [None] is an attribute that
    [__init__] has not assigned yet. *)
Module Volume.
Record t := mk {
  front_matter_id : option string;
  top_level_id : option string;
  attrib : option loc;
  content : option loc
}.
Definition blank : t := mk None None None None.
Definition set_front_matter_id (v : t) (x : string) : t :=
  mk (Some x) (top_level_id v) (attrib v) (content v).
Definition set_top_level_id (v : t) (x : string) : t :=
  mk (front_matter_id v) (Some x) (attrib v) (content v).
Definition set_attrib (v : t) (x : loc) : t :=
  mk (front_matter_id v) (top_level_id v) (Some x) (content v).
Definition set_content (v : t) (x : loc) : t :=
  mk (front_matter_id v) (top_level_id v) (attrib v) (Some x).
End Volume.

(** The store: one heap per kind of object.  A Python list of papers is a
    list of references. *)
Record Store := mkStore {
  papers : gmap loc Paper.t;
  dicts : gmap loc dict;
  lists : gmap loc (list loc);
  volumes : gmap loc Volume.t
}.

Definition set_papers (f : gmap loc Paper.t → gmap loc Paper.t) (st : Store) : Store :=
  mkStore (f (papers st)) (dicts st) (lists st) (volumes st).
Definition set_dicts (f : gmap loc dict → gmap loc dict) (st : Store) : Store :=
  mkStore (papers st) (f (dicts st)) (lists st) (volumes st).
Definition set_lists (f : gmap loc (list loc) → gmap loc (list loc)) (st : Store) : Store :=
  mkStore (papers st) (dicts st) (f (lists st)) (volumes st).
Definition set_volumes (f : gmap loc Volume.t → gmap loc Volume.t) (st : Store) : Store :=
  mkStore (papers st) (dicts st) (lists st) (f (volumes st)).

(** ** The monad *)

(** [Wrong] is a reference without an object: no Python program reaches
    it, and no store built by allocation contains one. *)
Inductive outcome (A : Type) :=
| Ok (a : A)
| Raise (e : exn)
| Wrong.
Arguments Ok {A} a.
Arguments Raise {A} e.
Arguments Wrong {A}.

Definition M (A : Type) : Type := Store → outcome A * Store.

Definition ret {A} (a : A) : M A := fun st => (Ok a, st).
Definition raise {A} (e : exn) : M A := fun st => (Raise e, st).
Definition wrong {A} : M A := fun st => (Wrong, st).
Definition bind {A B} (m : M A) (k : A → M B) : M B :=
  fun st =>
    match m st with
    | (Ok a, st') => k a st'
    | (Raise e, st') => (Raise e, st')
    | (Wrong, st') => (Wrong, st')
    end.

Declare Scope py_scope.
Delimit Scope py_scope with py.
Notation "x <~ m ;; k" := (bind m (fun x => k))
  (at level 100, m at next level, right associativity) : py_scope.
Notation "m ;; k" := (bind m (fun _ => k))
  (at level 100, right associativity) : py_scope.
Local Open Scope py_scope.

Definition of_option {A} (o : option A) : M A :=
  match o with Some a => ret a | None => wrong end.

(** [for x in xs: body]. *)
Fixpoint for_each {A} (xs : list A) (body : A → M unit) : M unit :=
  match xs with
  | [] => ret tt
  | x :: xs' => body x ;; for_each xs' body
  end.

(** ** Store primitives *)

Definition read_paper (l : loc) : M Paper.t :=
  fun st => of_option (papers st !! l) st.
Definition write_paper (l : loc) (p : Paper.t) : M unit :=
  fun st => (Ok tt, set_papers (insert l p) st).

Definition read_dict (l : loc) : M dict :=
  fun st => of_option (dicts st !! l) st.
Definition write_dict (l : loc) (d : dict) : M unit :=
  fun st => (Ok tt, set_dicts (insert l d) st).
Definition alloc_dict (d : dict) : M loc :=
  fun st => let l := fresh (dom (dicts st)) in (Ok l, set_dicts (insert l d) st).

Definition read_list (l : loc) : M (list loc) :=
  fun st => of_option (lists st !! l) st.
Definition write_list (l : loc) (xs : list loc) : M unit :=
  fun st => (Ok tt, set_lists (insert l xs) st).
Definition alloc_list (xs : list loc) : M loc :=
  fun st => let l := fresh (dom (lists st)) in (Ok l, set_lists (insert l xs) st).

Definition read_volume (l : loc) : M Volume.t :=
  fun st => of_option (volumes st !! l) st.
Definition write_volume (l : loc) (v : Volume.t) : M unit :=
  fun st => (Ok tt, set_volumes (insert l v) st).
Definition alloc_volume (v : Volume.t) : M loc :=
  fun st => let l := fresh (dom (volumes st)) in (Ok l, set_volumes (insert l v) st).

(** ** Python built-ins *)

(** [k in d] *)
Definition dict_contains (l : loc) (k : string) : M bool :=
  d <~ read_dict l ;; ret (bool_decide (is_Some (d !! k))).

(** [d[k]] *)
Definition dict_getitem (l : loc) (k : string) : M value :=
  d <~ read_dict l ;;
  match d !! k with
  | Some v => ret v
  | None => raise (KeyError k)
  end.

(** [d[k] = v] *)
Definition dict_setitem (l : loc) (k : string) (v : value) : M unit :=
  d <~ read_dict l ;; write_dict l (<[k:=v]> d).

(** [del d[k]] *)
Definition dict_delitem (l : loc) (k : string) : M unit :=
  d <~ read_dict l ;;
  match d !! k with
  | Some _ => write_dict l (delete k d)
  | None => raise (KeyError k)
  end.

(** [d.copy()]: a new dictionary with the same bindings. *)
Definition dict_copy (l : loc) : M loc :=
  d <~ read_dict l ;; alloc_dict d.

(** [xs.append(x)] *)
Definition list_append (l : loc) (x : loc) : M unit :=
  xs <~ read_list l ;; write_list l (xs ++ [x]).

(** [s[0]] *)
Definition str_first (s : string) : M ascii :=
  match s with
  | String c _ => ret c
  | EmptyString => raise IndexError
  end.

(** [s[:n]] *)
Definition str_prefix (n : nat) (s : string) : string := substring 0 n s.

Definition str_of_char (c : ascii) : string := String c EmptyString.

(** The format string of [full_id]: two fields and a hyphen between. *)
Definition format_dash (a b : string) : string := a ++ "-" ++ b.

(** Reading an instance attribute of a volume. *)
Definition getattr {A} (name : string) (field : Volume.t → option A) (self : loc) : M A :=
  v <~ read_volume self ;;
  match field v with
  | Some a => ret a
  | None => raise (AttributeError name)
  end.

(** Assigning one. *)
Definition setattr {A} (set : Volume.t → A → Volume.t) (self : loc) (a : A) : M unit :=
  v <~ read_volume self ;; write_volume self (set v a).

(** [try: m] with one handler, [except KeyError: h]. *)
Definition try_except_KeyError {A} (m h : M A) : M A :=
  fun st =>
    match m st with
    | (Raise (KeyError _), st') => h st'
    | r => r
    end.

(** ** Regular expressions: the part of [re] the class uses *)

(** U+002D. *)
Definition hyphen : N := N_of_ascii "-".

(** What [re] takes from the Unicode database for a str pattern: the code
    points that [\s] matches, those that [\d] matches, and, under
    [re.IGNORECASE], the code points [x] that a character [c] of the
    pattern matches.  The database belongs to the interpreter, not to the
    package: the three tables are parameters, together with two facts
    about the hyphen, which is no digit and has no other case. *)
Class Unicode := {
  is_space : N → bool;
  is_digit : N → bool;
  same_letter : N → N → bool;
  hyphen_is_no_digit : is_digit hyphen = false;
  hyphen_has_no_case : ∀ x, same_letter hyphen x = true ↔ x = hyphen
}.

(** One-character patterns. *)
Inductive atom :=
| Lit (c : N)
| Space
| Digit.

(** Patterns.  Repetition is over one-character patterns, which is all the
    class writes; [Star], [Plus] and [Opt] are greedy. *)
Inductive regex :=
| Eps
| Atom (a : atom)
| Seq (r1 r2 : regex)
| Alt (r1 r2 : regex)
| Star (a : atom)
| Plus (a : atom)
| Opt (r : regex)
| Group (n : nat) (r : regex).

(** A way of matching at the start of the input: what was consumed, the
    groups captured, what is left. *)
Record way := mkWay {
  consumed : list N;
  captured : gmap nat (list N);
  remaining : list N
}.

Definition extend (x : N) (w : way) : way :=
  mkWay (x :: consumed w) (captured w) (remaining w).

Definition after (pre : list N) (w : way) : way :=
  mkWay (pre ++ consumed w) (captured w) (remaining w).

Definition capture (n : nat) (w : way) : way :=
  mkWay (consumed w) (<[n := consumed w]> (captured w)) (remaining w).

(** A match object: where the match starts and the first way found. *)
Record match_object := mkMatch {
  start : nat;
  found : way
}.

(** [m.group(n)]: [None] for a group that took no part in the match. *)
Definition group (m : match_object) (n : nat) : value :=
  match lookup (A := list N) n (captured (found m)) with
  | Some cs => VStr cs
  | None => VNone
  end.

(** A word as a pattern. *)
Fixpoint word (cs : list N) : regex :=
  match cs with
  | [] => Eps
  | c :: cs' => Seq (Atom (Lit c)) (word cs')
  end.

Definition lit (s : string) : regex := word (text_of_string s).

(** The pattern of the volume number: the word Volume, any white space,
    and group 1, one digit or more. *)
Definition volume_pattern : regex :=
  Seq (lit "Volume") (Seq (Star Space) (Group 1 (Plus Digit))).

(** The pattern of the issue number: group 1, the word Number or the word
    Issue; any white space; and group 2, one digit or more, a hyphen or
    none, any digits. *)
Definition issue_pattern : regex :=
  Seq (Group 1 (Alt (lit "Number") (lit "Issue")))
      (Seq (Star Space)
           (Group 2 (Seq (Plus Digit) (Seq (Opt (Atom (Lit hyphen))) (Star Digit))))).

Section matcher.
Context `{Unicode}.

Definition atom_match (ignorecase : bool) (a : atom) (x : N) : bool :=
  match a with
  | Lit c => if ignorecase then same_letter c x else bool_decide (x = c)
  | Space => is_space x
  | Digit => is_digit x
  end.

(** All the ways [a*] matches at the start of [s], longest first: the
    order in which a backtracking matcher tries them. *)
Fixpoint star_ways (ic : bool) (a : atom) (g : gmap nat (list N)) (s : list N)
  : list way :=
  match s with
  | x :: s' =>
      if atom_match ic a x
      then map (extend x) (star_ways ic a g s') ++ [mkWay [] g s]
      else [mkWay [] g s]
  | [] => [mkWay [] g []]
  end.

(** All the ways [r] matches at the start of [s], in the order a
    backtracking matcher tries them. *)
Fixpoint ways (ic : bool) (r : regex) (g : gmap nat (list N)) (s : list N)
  : list way :=
  match r with
  | Eps => [mkWay [] g s]
  | Atom a =>
      match s with
      | x :: s' => if atom_match ic a x then [mkWay [x] g s'] else []
      | [] => []
      end
  | Seq r1 r2 =>
      w1 ← ways ic r1 g s;
      after (consumed w1) <$> ways ic r2 (captured w1) (remaining w1)
  | Alt r1 r2 => ways ic r1 g s ++ ways ic r2 g s
  | Star a => star_ways ic a g s
  | Plus a =>
      match s with
      | x :: s' => if atom_match ic a x then extend x <$> star_ways ic a g s' else []
      | [] => []
      end
  | Opt r => ways ic r g s ++ [mkWay [] g s]
  | Group n r => capture n <$> ways ic r g s
  end.

(** [re.search]: the first way at the leftmost position that has one. *)
Fixpoint search_from (ic : bool) (r : regex) (pos : nat) (s : list N)
  : option match_object :=
  match ways ic r ∅ s with
  | w :: _ => Some (mkMatch pos w)
  | [] =>
      match s with
      | [] => None
      | _ :: s' => search_from ic r (S pos) s'
      end
  end.

Definition re_search (r : regex) (s : text) (ignorecase : bool) : option match_object :=
  search_from ignorecase r 0 s.

End matcher.

(** ** Collaborators *)

(** The rest of the package, through the interface the class uses:
    [data.ANTHOLOGY_URL.format], [data.get_journal_title],
    [Paper.full_id], [VenueIndex.register] (which is handed the volume
    being built, and may read it and the store) and
    [SIGIndex.get_associated_sigs]. *)
Class Collaborators := {
  VenueIndex : Type;
  SIGIndex : Type;
  ANTHOLOGY_URL_format : string → string;
  get_journal_title : string → value → value;
  Paper_full_id : Paper.t → string;
  register : VenueIndex → Store → loc → value;
  get_associated_sigs : SIGIndex → string → value
}.

(** The names bound at module level: the imports and the class. *)
Definition module_globals : list string :=
  ["re"; "data"; "Paper"; "VenueIndex"; "SIGIndex"; "format_markup_element"; "Volume"].

(** Looking up a global name. *)
Definition load_global (name : string) : M unit :=
  if bool_decide (name ∈ module_globals) then ret tt else raise (NameError name).

(** [re.search] on a value: only a string can be searched. *)
Definition search_value `{Unicode} (r : regex) (v : value) (ignorecase : bool)
  : M (option match_object) :=
  match v with
  | VStr s => ret (re_search r s ignorecase)
  | _ => raise TypeError
  end.

(** ** The class *)

Section Volume_class.
Context `{Collaborators} `{Unicode}.

(** The property [full_id]. *)
Definition full_id (self : loc) : M string :=
  top <~ getattr "top_level_id" Volume.top_level_id self ;;
  c <~ str_first top ;;
  if bool_decide (c = "W"%char) then
    top <~ getattr "top_level_id" Volume.top_level_id self ;;
    fm <~ getattr "front_matter_id" Volume.front_matter_id self ;;
    ret (format_dash top (str_prefix 2 fm))
  else
    top <~ getattr "top_level_id" Volume.top_level_id self ;;
    fm <~ getattr "front_matter_id" Volume.front_matter_id self ;;
    c0 <~ str_first fm ;;
    ret (format_dash top (str_of_char c0)).

(** [paper.full_id] *)
Definition paper_full_id (paper : loc) : M string :=
  p <~ read_paper paper ;; ret (Paper_full_id p).

Fixpoint full_ids (ps : list loc) : M (list string) :=
  match ps with
  | [] => ret []
  | p :: ps' =>
      i <~ paper_full_id p ;;
      rest <~ full_ids ps' ;;
      ret (i :: rest)
  end.

(** The property [paper_ids]. *)
Definition paper_ids (self : loc) : M (list string) :=
  c <~ getattr "content" Volume.content self ;;
  ps <~ read_list c ;;
  full_ids ps.

(** [append] *)
Definition append (self paper : loc) : M unit :=
  c <~ getattr "content" Volume.content self ;;
  list_append c paper ;;
  p <~ read_paper paper ;;
  (match Paper.parent_volume_id p with
   | Some _ =>
       (* log.error(...): the name log, then the three arguments *)
       load_global "log" ;;
       _ <~ paper_full_id paper ;;
       _ <~ full_id self ;;
       ret tt
   | None => ret tt
   end) ;;
  i <~ full_id self ;;
  p <~ read_paper paper ;;
  write_paper paper (Paper.set_parent_volume_id p (Some i)).

(** [_set_meta_info] *)
Definition _set_meta_info (self : loc) : M unit :=
  top <~ getattr "top_level_id" Volume.top_level_id self ;;
  a <~ getattr "attrib" Volume.attrib self ;;
  title <~ dict_getitem a "title" ;;
  a <~ getattr "attrib" Volume.attrib self ;;
  dict_setitem a "meta_journal_title" (get_journal_title top title) ;;
  a <~ getattr "attrib" Volume.attrib self ;;
  title <~ dict_getitem a "title" ;;
  volume_no <~ search_value volume_pattern title true ;;
  (match volume_no with
   | Some m =>
       a <~ getattr "attrib" Volume.attrib self ;;
       dict_setitem a "meta_volume" (group m 1)
   | None => ret tt
   end) ;;
  a <~ getattr "attrib" Volume.attrib self ;;
  title <~ dict_getitem a "title" ;;
  issue_no <~ search_value issue_pattern title true ;;
  match issue_no with
  | Some m =>
      a <~ getattr "attrib" Volume.attrib self ;;
      dict_setitem a "meta_issue" (group m 2)
  | None => ret tt
  end.

(** [__init__] *)
Definition __init__ (self front_matter : loc)
    (venue_index : VenueIndex) (sig_index : SIGIndex) : M unit :=
  fm <~ read_paper front_matter ;;
  setattr Volume.set_front_matter_id self (Paper.paper_id fm) ;;
  fm <~ read_paper front_matter ;;
  setattr Volume.set_top_level_id self (Paper.top_level_id fm) ;;
  fm <~ read_paper front_matter ;;
  a <~ dict_copy (Paper.attrib fm) ;;
  setattr Volume.set_attrib self a ;;
  a <~ getattr "attrib" Volume.attrib self ;;
  has_author <~ dict_contains a "author" ;;
  (if has_author : bool then
     a <~ getattr "attrib" Volume.attrib self ;;
     v <~ dict_getitem a "author" ;;
     a <~ getattr "attrib" Volume.attrib self ;;
     dict_setitem a "editor" v ;;
     a <~ getattr "attrib" Volume.attrib self ;;
     dict_delitem a "author"
   else ret tt) ;;
  for_each ["revision"; "erratum"; "pages"] (fun attrib =>
    a <~ getattr "attrib" Volume.attrib self ;;
    b <~ dict_contains a attrib ;;
    if b : bool then
      a <~ getattr "attrib" Volume.attrib self ;;
      dict_delitem a attrib
    else ret tt) ;;
  i <~ full_id self ;;
  a <~ getattr "attrib" Volume.attrib self ;;
  dict_setitem a "url" (VStr (ANTHOLOGY_URL_format i)) ;;
  venues <~ (fun st => (Ok (register venue_index st self), st)) ;;
  a <~ getattr "attrib" Volume.attrib self ;;
  dict_setitem a "venues" venues ;;
  fm_full_id <~ paper_full_id front_matter ;;
  a <~ getattr "attrib" Volume.attrib self ;;
  dict_setitem a "sigs" (get_associated_sigs sig_index fm_full_id) ;;
  _set_meta_info self ;;
  c <~ alloc_list [] ;;
  setattr Volume.set_content self c ;;
  top <~ getattr "top_level_id" Volume.top_level_id self ;;
  c0 <~ str_first top ;;
  if bool_decide (c0 ∈ ["J"%char; "Q"%char]) then ret tt
  else append self front_matter.

(** [Volume(front_matter, venue_index, sig_index)]: a new object, and
    [__init__] on it. *)
Definition Volume_new (front_matter : loc)
    (venue_index : VenueIndex) (sig_index : SIGIndex) : M loc :=
  self <~ alloc_volume Volume.blank ;;
  __init__ self front_matter venue_index sig_index ;;
  ret self.

(** [get] *)
Definition get (self : loc) (name : string) (default : value) : M value :=
  try_except_KeyError
    (a <~ getattr "attrib" Volume.attrib self ;; dict_getitem a name)
    (ret default).

End Volume_class.

(** [get_title]; [utils.format_markup_element] is not part of this file and
    is a parameter. *)
Definition get_title (format_markup_element : value → string → value)
    (self : loc) (form : string) : M value :=
  x <~ get self "xml_title" VNone ;;
  ret (format_markup_element x form).

(** ** A part of the database, to run the class on *)

(** The white space below U+0100, the spaces U+2000 to U+200A, and the
    ideographic space. *)
Definition sample_space (n : N) : bool :=
  (((9 <=? n) && (n <=? 13)) || ((28 <=? n) && (n <=? 32))
   || (n =? 133) || (n =? 160)
   || ((8192 <=? n) && (n <=? 8202)) || (n =? 12288))%N.

(** The ASCII digits, the Arabic-Indic digits and the fullwidth digits. *)
Definition sample_digit (n : N) : bool :=
  (((48 <=? n) && (n <=? 57)) || ((1632 <=? n) && (n <=? 1641))
   || ((65296 <=? n) && (n <=? 65305)))%N.

Definition ascii_lower (n : N) : N :=
  if ((65 <=? n) && (n <=? 90))%N then (n + 32)%N else n.

(** The two cases of an ASCII letter, and the four letters beyond ASCII
    that [re.IGNORECASE] matches with one: the long s, the two other i,
    the Kelvin sign. *)
Definition sample_same_letter (c x : N) : bool :=
  ((ascii_lower x =? ascii_lower c)
   || ((ascii_lower c =? 115) && (x =? 383))
   || ((ascii_lower c =? 105) && ((x =? 304) || (x =? 305)))
   || ((ascii_lower c =? 107) && (x =? 8490)))%N.

#[export] Instance sample_unicode : Unicode.
Proof.
  refine {| is_space := sample_space;
            is_digit := sample_digit;
            same_letter := sample_same_letter |}.
  - reflexivity.
  - intros x. unfold sample_same_letter.
    change (ascii_lower hyphen) with 45%N. change hyphen with 45%N.
    cbn [N.eqb Pos.eqb andb]. rewrite !orb_false_r. unfold ascii_lower.
    rewrite N.eqb_eq.
    destruct ((65 <=? x) && (x <=? 90))%N eqn:E; [|done].
    apply andb_true_iff in E as [E1 E2]. apply N.leb_le in E1, E2. lia.
Defined.

(** ** A small archive to run the class on *)

(** Collaborators in the manner of the package: the URL template of
    [data], papers identified by collection and number, indexes that
    answer with no code. *)
Definition sample_collaborators : Collaborators := {|
  VenueIndex := unit;
  SIGIndex := unit;
  ANTHOLOGY_URL_format := fun i => "https://www.aclweb.org/anthology/" ++ i;
  get_journal_title := fun _ title => title;
  Paper_full_id := fun p => Paper.top_level_id p ++ "-" ++ Paper.paper_id p;
  register := fun _ _ _ => VCodes [];
  get_associated_sigs := fun _ _ => VCodes []
|}.

(** A store with one paper, its dictionary at reference 0. *)
Definition one_paper (paper_id top_level_id : string) (parent : option string)
    (d : gmap string value) : Store :=
  mkStore {[ 0 := Paper.mk paper_id top_level_id 0 parent ]} {[ 0 := d ]} ∅ ∅.

Definition workshop_front_matter : gmap string value :=
  {[ "title" := VStr "Proceedings of the Workshop, Volume 2";
     "author" := VStr "A. Editor";
     "pages" := VStr "1-10" ]}.

Definition sample_store : Store := one_paper "1000" "W15" None workshop_front_matter.

(** A venue index that answers with what it sees of the volume it is
    handed: the two identifiers, whether [content] is assigned, and the
    keys of [attrib]. *)
Definition seen_by_register (st : Store) (self : loc) : value :=
  match volumes st !! self with
  | Some v =>
      VCodes (default "" (Volume.top_level_id v)
              :: default "" (Volume.front_matter_id v)
              :: match Volume.content v with
                 | Some _ => "content"
                 | None => "no content"
                 end
              :: match Volume.attrib v ≫= (dicts st !!.) with
                 | Some d => (map_to_list d).*1
                 | None => []
                 end)
  | None => VNone
  end.

Definition observant_collaborators : Collaborators := {|
  VenueIndex := unit;
  SIGIndex := unit;
  ANTHOLOGY_URL_format := fun i => "https://www.aclweb.org/anthology/" ++ i;
  get_journal_title := fun _ title => title;
  Paper_full_id := fun p => Paper.top_level_id p ++ "-" ++ Paper.paper_id p;
  register := fun _ => seen_by_register;
  get_associated_sigs := fun _ i => VCodes [i]
|}.

(** ** Samples for [append] *)

(** A volume built from the front matter P19-1000, and a paper that the
    volume P18-1 already owns. *)
Definition two_papers : Store :=
  mkStore {[ 0 := Paper.mk "1000" "P19" 0 None;
             1 := Paper.mk "1001" "P18" 1 (Some "P18-1") ]}
          {[ 0 := {[ "title" := VStr "Proceedings of the Conference" ]};
             1 := {[ "title" := VStr "A Paper" ]} ]}
          ∅ ∅.

Definition owned_paper_store : Store :=
  snd (Volume_new (H := sample_collaborators) 0 tt tt two_papers).

(** ** Samples for construction and for the derived attributes *)

(** A front matter without title, and one that has no collection
    either. *)
Definition untitled_store : Store :=
  one_paper "1000" "P19" None {[ "author" := VStr "A. Editor" ]}.

Definition unnamed_store : Store :=
  one_paper "1000" "" None {[ "author" := VStr "A. Editor" ]}.

(** A volume that has its two identifiers and nothing else. *)
Definition bare_volume (top fmid : string) : Store :=
  mkStore ∅ ∅ ∅ {[ 0 := Volume.mk (Some fmid) (Some top) None None ]}.

(** A volume under construction, before the derivation, with the
    attributes [d]. *)
Definition volume_with (d : gmap string value) : Store :=
  mkStore ∅ {[ 0 := d ]} ∅ {[ 0 := Volume.mk (Some "1000") (Some "J90") (Some 0) None ]}.

Definition journal_issue : gmap string value :=
  {[ "title" := VStr "Computational Linguistics, Volume 16, Number 3-4" ]}.

(** Titles beyond ASCII: Volume and the fullwidth digit two, U+FF12; Issue
    written with two long s, U+017F, and the number 3. *)
Definition fullwidth_volume : gmap string value :=
  {[ "title" := VStr (text_of_string "Volume " ++ [65298%N])%list ]}.

Definition long_s_issue : gmap string value :=
  {[ "title" := VStr (text_of_string "I" ++ [383%N; 383%N] ++ text_of_string "ue 3")%list ]}.

(** Attributes that come with a volume number, under a title that has
    none. *)
Definition stale_volume : gmap string value :=
  {[ "title" := VStr "Proceedings"; "meta_volume" := VStr "7" ]}.

(** The workshop volume, constructed. *)
Definition workshop_volume_store : Store :=
  snd (Volume_new (H := sample_collaborators) 0 tt tt sample_store).

(** A volume built from the front matter P19-1000, and a paper of the
    same collection that has no parent yet. *)
Definition two_free_papers : Store :=
  mkStore {[ 0 := Paper.mk "1000" "P19" 0 None;
             1 := Paper.mk "1001" "P19" 1 None ]}
          {[ 0 := {[ "title" := VStr "Proceedings of the Conference" ]};
             1 := {[ "title" := VStr "A Paper" ]} ]}
          ∅ ∅.

Definition free_paper_store : Store :=
  snd (Volume_new (H := sample_collaborators) 0 tt tt two_free_papers).

(** The same store, after the free paper has been appended. *)
Definition appended_store : Store :=
  snd (append (H := sample_collaborators) 0 1 free_paper_store).

(** A formatter for the samples: the value itself for the form xml, and
    [None] for every other form. *)
Definition sample_formatter (x : value) (form : string) : value :=
  if bool_decide (form = "xml") then x else VNone.

(** * Closed forms and observations *)

(** ** [full_id] in closed form *)

(** The identifier as a function of the two fields. *)
Definition identifier (top fmid : string) : outcome string :=
  match top with
  | EmptyString => Raise IndexError
  | String c _ =>
      if bool_decide (c = "W"%char) then Ok (top ++ "-" ++ substring 0 2 fmid)
      else match fmid with
           | EmptyString => Raise IndexError
           | String c0 _ => Ok (top ++ "-" ++ String c0 EmptyString)
           end
  end.

(** ** The attributes in closed form *)

(** The attributes after the derivation, for a title [t]. *)
Definition with_meta `{Collaborators} `{Unicode} (top : string) (t : text)
    (d : gmap string value)
  : gmap string value :=
  let d1 := <["meta_journal_title" := get_journal_title top (VStr t)]> d in
  let d2 := match re_search volume_pattern t true with
            | Some m => <["meta_volume" := group m 1]> d1
            | None => d1
            end in
  match re_search issue_pattern t true with
  | Some m => <["meta_issue" := group m 2]> d2
  | None => d2
  end.

(** The attributes taken over from the front matter: the author becomes
    the editor, three fields are left out. *)
Definition inherited (d : gmap string value) : gmap string value :=
  let d1 := match d !! "author" with
            | Some v => delete "author" (<["editor" := v]> d)
            | None => d
            end in
  delete "pages" (delete "erratum" (delete "revision" d1)).

Definition starts_with_J_or_Q (top : string) : bool :=
  match top with
  | String c _ => bool_decide (c ∈ ["J"%char; "Q"%char])
  | EmptyString => false
  end.

(** What [__init__] does to a store, in closed form; [init_run] below
    proves that this is what the method computes. *)
Definition construction `{Collaborators} `{Unicode}
    (P : gmap nat Paper.t) (D : gmap nat (gmap string value))
    (L : gmap nat (list nat)) (V : gmap nat Volume.t)
    (self front_matter : nat) (venue_index : VenueIndex) (sig_index : SIGIndex)
    (v0 : Volume.t) (p : Paper.t) (d : gmap string value)
  : outcome unit * Store :=
  let a := fresh (dom D) in
  let c := fresh (dom L) in
  let top := Paper.top_level_id p in
  let fmid := Paper.paper_id p in
  let V1 := <[self := Volume.mk (Some fmid) (Some top) (Some a) (Volume.content v0)]> V in
  let V2 := <[self := Volume.mk (Some fmid) (Some top) (Some a) (Some c)]> V in
  let d1 := inherited d in
  match identifier top fmid with
  | Ok i =>
      let d2 := <["url" := VStr (ANTHOLOGY_URL_format i)]> d1 in
      let venues := register venue_index (mkStore P (<[a := d2]> D) L V1) self in
      let d3 := <["sigs" := get_associated_sigs sig_index (Paper_full_id p)]>
                  (<["venues" := venues]> d2) in
      match d3 !! "title" with
      | None => (Raise (KeyError "title"), mkStore P (<[a := d3]> D) L V1)
      | Some (VStr t) =>
          let d4 := with_meta top t d3 in
          if starts_with_J_or_Q top
          then (Ok tt, mkStore P (<[a := d4]> D) (<[c := []]> L) V2)
          else match Paper.parent_volume_id p with
               | Some _ =>
                   (Raise (NameError "log"),
                    mkStore P (<[a := d4]> D) (<[c := [front_matter]]> L) V2)
               | None =>
                   (Ok tt,
                    mkStore (<[front_matter := Paper.set_parent_volume_id p (Some i)]> P)
                            (<[a := d4]> D) (<[c := [front_matter]]> L) V2)
               end
      | Some x =>
          (Raise TypeError,
           mkStore P (<[a := <["meta_journal_title" := get_journal_title top x]> d3]> D)
                   L V1)
      end
  | Raise e => (Raise e, mkStore P (<[a := d1]> D) L V1)
  | Wrong => (Wrong, mkStore P (<[a := d1]> D) L V1)
  end.

(** ** Observing a volume *)

(** [self.attrib], as a dictionary. *)
Definition attrib_of (st : Store) (self : nat) : option (gmap string value) :=
  v ← volumes st !! self; a ← Volume.attrib v; dicts st !! a.

(** [self.content], as a list. *)
Definition content_of (st : Store) (self : nat) : option (list nat) :=
  v ← volumes st !! self; c ← Volume.content v; lists st !! c.

(** [paper.attrib], as a dictionary. *)
Definition paper_attrib_of (st : Store) (paper : nat) : option (gmap string value) :=
  p ← papers st !! paper; dicts st !! Paper.attrib p.

(** [paper.parent_volume_id] *)
Definition parent_of (st : Store) (paper : nat) : option (option string) :=
  Paper.parent_volume_id <$> papers st !! paper.

Definition starts_with_W (top : string) : bool :=
  match top with
  | String c _ => bool_decide (c = "W"%char)
  | EmptyString => false
  end.

(** ** The language of a pattern *)

Section languages.
Context `{Unicode}.

(** The words a pattern denotes. *)
Fixpoint lang (ic : bool) (r : regex) (u : list N) : Prop :=
  match r with
  | Eps => u = []
  | Atom a => ∃ x, u = [x] ∧ atom_match ic a x = true
  | Seq r1 r2 => ∃ u1 u2, u = (u1 ++ u2)%list ∧ lang ic r1 u1 ∧ lang ic r2 u2
  | Alt r1 r2 => lang ic r1 u ∨ lang ic r2 u
  | Star a => Forall (λ x, atom_match ic a x = true) u
  | Plus a => u ≠ [] ∧ Forall (λ x, atom_match ic a x = true) u
  | Opt r => lang ic r u ∨ u = []
  | Group _ r => lang ic r u
  end.

(** The pattern occurs in a str. *)
Definition occurs (ic : bool) (r : regex) (t : list N) : Prop :=
  ∃ pre u rest, t = (pre ++ u ++ rest)%list ∧ lang ic r u.

(** ** The two patterns, in the words of the specification *)

(** The word [kw], letter for letter, in any case. *)
Definition same_word (kw : string) (u : list N) : Prop :=
  Forall2 (λ c x, same_letter c x = true) (text_of_string kw) u.

Definition all_spaces (ws : list N) : Prop := Forall (λ x, is_space x = true) ws.
Definition all_digits (ds : list N) : Prop := Forall (λ x, is_digit x = true) ds.

(** [t] splits into [pre], the word Volume in any case, optional white
    space, one digit or more, and [rest]. *)
Definition volume_at (t : text) (pre kw ws ds rest : list N) : Prop :=
  t = (pre ++ kw ++ ws ++ ds ++ rest)%list ∧
  same_word "Volume" kw ∧ all_spaces ws ∧ ds ≠ [] ∧ all_digits ds.

(** The title contains, in any case, Volume followed by optional white
    space and one digit or more. *)
Definition has_volume_number (t : text) : Prop :=
  ∃ pre kw ws ds rest, volume_at t pre kw ws ds rest.

(** A digit run, optionally followed by a hyphen and more digits. *)
Definition issue_string (ds tail : list N) : Prop :=
  ds ≠ [] ∧ all_digits ds ∧
  (tail = [] ∨ ∃ ds2, tail = hyphen :: ds2 ∧ all_digits ds2).

(** [t] splits into [pre], the word Number or the word Issue in any case,
    optional white space, an issue string, and [rest]. *)
Definition issue_at (t : text) (pre kw ws ds tail rest : list N) : Prop :=
  t = (pre ++ kw ++ ws ++ (ds ++ tail) ++ rest)%list ∧
  (same_word "Number" kw ∨ same_word "Issue" kw) ∧ all_spaces ws ∧
  issue_string ds tail.

(** The title contains, in any case, Number or Issue followed by optional
    white space and an issue string. *)
Definition has_issue_number (t : text) : Prop :=
  ∃ pre kw ws ds tail rest, issue_at t pre kw ws ds tail rest.

Definition no_digit_next (rest : list N) : Prop :=
  match rest with
  | x :: _ => is_digit x = false
  | [] => True
  end.

(** The digit run that is captured: that of the leftmost occurrence, as
    long as it can be. *)
Definition captured_volume (t : text) (ds : list N) : Prop :=
  ∃ pre kw ws rest,
    volume_at t pre kw ws ds rest ∧ no_digit_next rest ∧
    ∀ pre1 kw1 ws1 ds1 rest1,
      volume_at t pre1 kw1 ws1 ds1 rest1 → (length pre ≤ length pre1)%nat.

(** The issue string that is captured: that of the leftmost occurrence;
    the digit run as long as it can be, the hyphen when there is one, the
    digits after it as long as they can be. *)
Definition captured_issue (t : text) (u : list N) : Prop :=
  ∃ pre kw ws ds tail rest,
    u = (ds ++ tail)%list ∧
    issue_at t pre kw ws ds tail rest ∧
    no_digit_next (tail ++ rest) ∧
    (tail = [] → ∀ rest', rest ≠ hyphen :: rest') ∧
    (tail ≠ [] → no_digit_next rest) ∧
    ∀ pre1 kw1 ws1 ds1 tail1 rest1,
      issue_at t pre1 kw1 ws1 ds1 tail1 rest1 → (length pre ≤ length pre1)%nat.

End languages.

(** ** Construction step by step *)

(** The store [register] is handed: identifiers and attributes assigned,
    url set, [content] not assigned. *)
Definition store_at_register `{Collaborators} (st : Store) (p : Paper.t) (d : gmap string value)
    (i : string) : Store :=
  mkStore (papers st)
    (<[fresh (dom (dicts st)) :=
         <["url" := VStr (ANTHOLOGY_URL_format i)]> (inherited d)]> (dicts st))
    (lists st)
    (<[fresh (dom (volumes st)) :=
         Volume.mk (Some (Paper.paper_id p)) (Some (Paper.top_level_id p))
           (Some (fresh (dom (dicts st)))) None]> (volumes st)).

(** The attributes of the volume before the derivation. *)
Definition described `{Collaborators} (st : Store) (venue_index : VenueIndex) (sig_index : SIGIndex)
    (p : Paper.t) (d : gmap string value) (i : string) : gmap string value :=
  <["sigs" := get_associated_sigs sig_index (Paper_full_id p)]>
    (<["venues" := register venue_index (store_at_register st p d i)
                     (fresh (dom (volumes st)))]>
       (<["url" := VStr (ANTHOLOGY_URL_format i)]> (inherited d))).

(** ** What a call leaves alone, what a volume owns *)

(** From [st] to [st']: no dictionary and no volume object has changed, no
    paper other than [paper] has, and every list has kept what it had, in
    front. *)
Definition only_touches (paper : nat) (st st' : Store) : Prop :=
  dicts st' = dicts st ∧
  volumes st' = volumes st ∧
  (∀ l, l ≠ paper → papers st' !! l = papers st !! l) ∧
  (∀ c ps, lists st !! c = Some ps → ∃ ps', lists st' !! c = Some (ps ++ ps')%list).

(** A computation whose every run is within [only_touches]. *)
Abbreviation within paper m :=
  (∀ st o st', m st = (o, st') → only_touches paper st st').

(** The volume has the identifier [i], and every paper of its content,
    each there once, has it as parent. *)
Definition owns (st : Store) (self : nat) (i : string) : Prop :=
  full_id self st = (Ok i, st) ∧
  ∃ ps, content_of st self = Some ps ∧
        NoDup ps ∧
        ∀ l, l ∈ ps → parent_of st l = Some (Some i).

(** The identifiers of the papers [ps], as [paper_ids] lists them. *)
Definition ids_of `{Collaborators} (st : Store) (ps : list nat) (ids : list string) : Prop :=
  Forall2 (λ l i, ∃ p, papers st !! l = Some p ∧ i = Paper_full_id p) ps ids.

(** * Properties *)

(** ** Running the monad *)

Ltac py_unfold :=
  unfold dict_contains, dict_getitem, dict_setitem, dict_delitem, dict_copy,
    list_append, str_first, getattr, setattr;
  unfold read_paper, write_paper, read_dict, write_dict, alloc_dict,
    read_list, write_list, alloc_list, read_volume, write_volume, alloc_volume;
  unfold bind, ret, raise, wrong, of_option;
  unfold set_papers, set_dicts, set_lists, set_volumes;
  cbn [for_each papers dicts lists volumes
       set_papers set_dicts set_lists set_volumes
       Volume.front_matter_id Volume.top_level_id Volume.attrib Volume.content
       Volume.set_front_matter_id Volume.set_top_level_id Volume.set_attrib
       Volume.set_content Volume.blank
       Paper.paper_id Paper.top_level_id Paper.attrib Paper.parent_volume_id
       Paper.set_parent_volume_id fst snd].

Ltac py_lookup :=
  rewrite ?lookup_insert_eq, ?insert_insert_eq;
  rewrite ?lookup_insert_ne by done.

Ltac py_step := py_unfold; py_lookup.

(** Run as far as the equations that [tac] rewrites with allow. *)
Ltac py_run tac := repeat (progress (py_step; tac)).

Lemma bind_Ok {A B} (m : M A) (k : A → M B) st a st' :
  m st = (Ok a, st') → bind m k st = k a st'.
Proof. intros E. unfold bind. by rewrite E. Qed.

Lemma bind_of_Raise {A B} (m : M A) (k : A → M B) st e st' :
  m st = (Raise e, st') → bind m k st = (Raise e, st').
Proof. intros E. unfold bind. by rewrite E. Qed.

(** ** [full_id] *)

Lemma full_id_run st self v top fmid :
  volumes st !! self = Some v →
  Volume.top_level_id v = Some top →
  Volume.front_matter_id v = Some fmid →
  full_id self st = (identifier top fmid, st).
Proof.
  intros Hv Ht Hf. destruct st as [P D L V]. simpl in Hv.
  unfold full_id, identifier. py_run ltac:(rewrite ?Hv, ?Ht, ?Hf).
  destruct top as [|c top']; [done|].
  case_bool_decide; py_run ltac:(rewrite ?Hv, ?Ht, ?Hf); [done|].
  by destruct fmid.
Qed.

(** ** [append] *)

Section append_runs.
Context `{Collaborators} `{Unicode}.
Variables (P : gmap nat Paper.t) (D : gmap nat (gmap string value))
          (L : gmap nat (list nat)) (V : gmap nat Volume.t).
Variables (self paper c : nat) (v : Volume.t) (p : Paper.t)
          (ps : list nat) (top fmid : string).
Hypothesis Hv : V !! self = Some v.
Hypothesis Hc : Volume.content v = Some c.
Hypothesis Ht : Volume.top_level_id v = Some top.
Hypothesis Hf : Volume.front_matter_id v = Some fmid.
Hypothesis Hps : L !! c = Some ps.
Hypothesis Hp : P !! paper = Some p.

(** A paper without a parent: appended, and given this volume as its
    parent, when the volume has an identifier. *)
Lemma append_run_free i :
  Paper.parent_volume_id p = None →
  identifier top fmid = Ok i →
  append self paper (mkStore P D L V)
  = (Ok tt, mkStore (<[paper := Paper.set_parent_volume_id p (Some i)]> P) D
                    (<[c := (ps ++ [paper])%list]> L) V).
Proof using Hv Hc Ht Hf Hps Hp.
  intros Hn Hi. unfold append.
  py_run ltac:(rewrite ?Hv, ?Hc, ?Hps, ?Hp, ?Hn).
  erewrite full_id_run by eauto. rewrite Hi.
  by py_run ltac:(rewrite ?Hp).
Qed.

(** A paper with a parent: the name [log] is looked up, and is not
    bound. *)
Lemma append_run_owned :
  is_Some (Paper.parent_volume_id p) →
  append self paper (mkStore P D L V)
  = (Raise (NameError "log"), mkStore P D (<[c := (ps ++ [paper])%list]> L) V).
Proof using Hv Hc Hps Hp.
  intros [x Hx]. unfold append.
  by py_run ltac:(rewrite ?Hv, ?Hc, ?Hps, ?Hp, ?Hx).
Qed.
End append_runs.

(** ** [_set_meta_info] *)

Section meta_runs.
Context `{Collaborators} `{Unicode}.
Variables (P : gmap nat Paper.t) (D : gmap nat (gmap string value))
          (L : gmap nat (list nat)) (V : gmap nat Volume.t).
Variables (self a : nat) (v : Volume.t) (top : string) (d : gmap string value).
Hypothesis Hv : V !! self = Some v.
Hypothesis Ht : Volume.top_level_id v = Some top.
Hypothesis Ha : Volume.attrib v = Some a.
Hypothesis Hd : D !! a = Some d.

Lemma set_meta_info_run_str t :
  d !! "title" = Some (VStr t) →
  _set_meta_info self (mkStore P D L V)
  = (Ok tt, mkStore P (<[a := with_meta top t d]> D) L V).
Proof using Hv Ht Ha Hd.
  intros Htitle. unfold _set_meta_info, with_meta, search_value.
  py_run ltac:(rewrite ?Hv, ?Ht, ?Ha, ?Hd, ?Htitle).
  destruct (re_search volume_pattern t true);
    py_run ltac:(rewrite ?Hv, ?Ht, ?Ha, ?Hd, ?Htitle);
    destruct (re_search issue_pattern t true);
    by py_run ltac:(rewrite ?Hv, ?Ht, ?Ha, ?Hd, ?Htitle).
Qed.

Lemma set_meta_info_run_missing :
  d !! "title" = None →
  _set_meta_info self (mkStore P D L V)
  = (Raise (KeyError "title"), mkStore P D L V).
Proof using Hv Ht Ha Hd.
  intros Htitle. unfold _set_meta_info.
  by py_run ltac:(rewrite ?Hv, ?Ht, ?Ha, ?Hd, ?Htitle).
Qed.

Lemma set_meta_info_run_other x :
  d !! "title" = Some x →
  (∀ t, x ≠ VStr t) →
  _set_meta_info self (mkStore P D L V)
  = (Raise TypeError,
     mkStore P (<[a := <["meta_journal_title" := get_journal_title top x]> d]> D) L V).
Proof using Hv Ht Ha Hd.
  intros Htitle Hx. unfold _set_meta_info, search_value.
  py_run ltac:(rewrite ?Hv, ?Ht, ?Ha, ?Hd, ?Htitle).
  destruct x; try done. by destruct (Hx s).
Qed.
End meta_runs.

(** ** [__init__] *)

Section init_runs.
Context `{Collaborators} `{Unicode}.

(** One turn of the loop over the fields to leave out. *)
Lemma discard_run P D L V self a v d k :
  V !! self = Some v →
  Volume.attrib v = Some a →
  D !! a = Some d →
  (a <~ getattr "attrib" Volume.attrib self ;;
   b <~ dict_contains a k ;;
   if b : bool then
     a <~ getattr "attrib" Volume.attrib self ;;
     dict_delitem a k
   else ret tt) (mkStore P D L V)
  = (Ok tt, mkStore P (<[a := delete k d]> D) L V).
Proof.
  intros Hv Ha Hd. py_run ltac:(rewrite ?Hv, ?Ha, ?Hd).
  destruct (d !! k) as [x|] eqn:Hk.
  - rewrite bool_decide_eq_true_2 by eauto.
    by py_run ltac:(rewrite ?Hv, ?Ha, ?Hd, ?Hk).
  - rewrite bool_decide_eq_false_2 by (by intros [? ?]).
    rewrite delete_id by done. by rewrite insert_id.
Qed.

Lemma discard_loop_run P D L V self a v d :
  V !! self = Some v →
  Volume.attrib v = Some a →
  D !! a = Some d →
  for_each ["revision"; "erratum"; "pages"] (fun attrib =>
    a <~ getattr "attrib" Volume.attrib self ;;
    b <~ dict_contains a attrib ;;
    if b : bool then
      a <~ getattr "attrib" Volume.attrib self ;;
      dict_delitem a attrib
    else ret tt) (mkStore P D L V)
  = (Ok tt,
     mkStore P (<[a := delete "pages" (delete "erratum" (delete "revision" d))]> D) L V).
Proof.
  intros Hv Ha Hd. cbn [for_each].
  erewrite bind_Ok by (eapply discard_run; eauto).
  erewrite bind_Ok by (eapply discard_run; eauto; apply lookup_insert_eq).
  erewrite bind_Ok by (eapply discard_run; eauto; apply lookup_insert_eq).
  by rewrite !insert_insert_eq.
Qed.

Lemma init_run P D L V self front_matter venue_index sig_index v0 p d :
  V !! self = Some v0 →
  P !! front_matter = Some p →
  D !! Paper.attrib p = Some d →
  __init__ self front_matter venue_index sig_index (mkStore P D L V)
  = construction P D L V self front_matter venue_index sig_index v0 p d.
Proof.
  intros Hv Hp Hd. unfold __init__, construction.
  set (loop := for_each _ _).
  py_run ltac:(rewrite ?Hv, ?Hp, ?Hd).
  assert (Hloop : ∀ d1,
    loop (mkStore P (<[fresh (dom D) := d1]> D) L
            (<[self := Volume.mk (Some (Paper.paper_id p)) (Some (Paper.top_level_id p))
                         (Some (fresh (dom D))) (Volume.content v0)]> V))
    = (Ok tt, mkStore P (<[fresh (dom D) :=
                            delete "pages" (delete "erratum" (delete "revision" d1))]> D) L
            (<[self := Volume.mk (Some (Paper.paper_id p)) (Some (Paper.top_level_id p))
                         (Some (fresh (dom D))) (Volume.content v0)]> V))).
  { intros d1. subst loop. erewrite discard_loop_run.
    - by rewrite insert_insert_eq.
    - apply lookup_insert_eq.
    - done.
    - apply lookup_insert_eq. }
  clearbody loop.
  match goal with
  | |- match ?m with pair _ _ => _ end = _ =>
      assert (Hrename : m = (Ok tt,
        mkStore P (<[fresh (dom D) :=
               match d !! "author" with
               | Some x => delete "author" (<["editor" := x]> d)
               | None => d
               end]> D) L
            (<[self := Volume.mk (Some (Paper.paper_id p)) (Some (Paper.top_level_id p))
                         (Some (fresh (dom D))) (Volume.content v0)]> V)))
  end.
  { destruct (d !! "author") as [x|] eqn:Hau.
    - rewrite bool_decide_eq_true_2 by eauto.
      by py_run ltac:(rewrite ?Hau).
    - by rewrite bool_decide_eq_false_2 by (by intros [? ?]). }
  rewrite Hrename, Hloop. clear Hrename Hloop loop.
  fold (inherited d).
  erewrite full_id_run by (first [apply lookup_insert_eq | reflexivity]).
  destruct (identifier _ _) as [i| |] eqn:Hi; [|done..].
  unfold paper_full_id.
  py_run ltac:(rewrite ?Hp).
  set (d3 := <["sigs" := _]> _).
  set (v1 := Volume.mk _ _ _ (Volume.content v0)).
  assert (Hd3 : d3 !! "title" = inherited d !! "title").
  { subst d3. by rewrite !lookup_insert_ne by done. }
  assert (Hself : <[self := v1]> V !! self = Some v1) by apply lookup_insert_eq.
  assert (Hattr : <[fresh (dom D) := d3]> D !! fresh (dom D) = Some d3)
    by apply lookup_insert_eq.
  destruct (inherited d !! "title") as [title|] eqn:Htitle.
  2: { by rewrite (set_meta_info_run_missing P _ L _ self _ v1
                     (Paper.top_level_id p) d3 Hself eq_refl eq_refl Hattr Hd3). }
  destruct title as [|t|l].
  1, 3: rewrite (set_meta_info_run_other P _ L _ self _ v1
                     (Paper.top_level_id p) d3 Hself eq_refl eq_refl Hattr _ Hd3)
          by done; by py_lookup.
  rewrite (set_meta_info_run_str P _ L _ self _ v1
             (Paper.top_level_id p) d3 Hself eq_refl eq_refl Hattr _ Hd3).
  py_run idtac. subst v1. py_run idtac.
  destruct (Paper.top_level_id p) as [|c0 top'] eqn:Htop; [done|].
  py_run idtac. cbn [starts_with_J_or_Q].
  case_bool_decide; [done|].
  destruct (Paper.parent_volume_id p) as [x|] eqn:Hparent.
  - erewrite append_run_owned;
      [| first [apply lookup_insert_eq | reflexivity | eauto]..].
    by py_step.
  - erewrite append_run_free;
      [| first [apply lookup_insert_eq | reflexivity | eauto]..].
    by py_step.
Qed.
End init_runs.

(** ** Construction *)

Section construction_runs.
Context `{Collaborators} `{Unicode}.

Lemma Volume_new_run P D L V front_matter venue_index sig_index p d :
  P !! front_matter = Some p →
  D !! Paper.attrib p = Some d →
  Volume_new front_matter venue_index sig_index (mkStore P D L V)
  = let self := fresh (dom V) in
    match construction P D L (<[self := Volume.blank]> V) self front_matter
            venue_index sig_index Volume.blank p d with
    | (Ok _, st') => (Ok self, st')
    | (Raise e, st') => (Raise e, st')
    | (Wrong, st') => (Wrong, st')
    end.
Proof.
  intros Hp Hd. unfold Volume_new. py_step.
  by erewrite init_run by (first [apply lookup_insert_eq | done]).
Qed.

Lemma Volume_new_dangling P D L V front_matter venue_index sig_index :
  (P !! front_matter = None ∨
   ∃ p, P !! front_matter = Some p ∧ D !! Paper.attrib p = None) →
  fst (Volume_new front_matter venue_index sig_index (mkStore P D L V)) = Wrong.
Proof.
  intros [Hp | (p & Hp & Hd)]; unfold Volume_new, __init__;
    by py_run ltac:(rewrite ?Hp, ?Hd).
Qed.

(** What a construction that returns has done. *)
Lemma Volume_new_Ok_inv st st' front_matter venue_index sig_index self :
  Volume_new front_matter venue_index sig_index st = (Ok self, st') →
  ∃ p d i t d3,
    let a := fresh (dom (dicts st)) in
    let c := fresh (dom (lists st)) in
    let top := Paper.top_level_id p in
    let fmid := Paper.paper_id p in
    papers st !! front_matter = Some p ∧
    dicts st !! Paper.attrib p = Some d ∧
    identifier top fmid = Ok i ∧
    inherited d !! "title" = Some (VStr t) ∧
    (∀ k, k ∉ ["url"; "venues"; "sigs"] →
          (d3 : gmap string value) !! k = inherited d !! k) ∧
    d3 !! "url" = Some (VStr (ANTHOLOGY_URL_format i)) ∧
    self = fresh (dom (volumes st)) ∧
    volumes st' = <[self := Volume.mk (Some fmid) (Some top) (Some a) (Some c)]> (volumes st) ∧
    dicts st' = <[a := with_meta top t d3]> (dicts st) ∧
    if starts_with_J_or_Q top
    then lists st' = <[c := []]> (lists st) ∧ papers st' = papers st
    else lists st' = <[c := [front_matter]]> (lists st) ∧
         Paper.parent_volume_id p = None ∧
         papers st' = <[front_matter := Paper.set_parent_volume_id p (Some i)]> (papers st).
Proof.
  destruct st as [P D L V]. intros Hrun.
  destruct (P !! front_matter) as [p|] eqn:Hp.
  2: { pose proof (Volume_new_dangling P D L V front_matter venue_index sig_index
                     (or_introl Hp)) as Hw. by rewrite Hrun in Hw. }
  destruct (D !! Paper.attrib p) as [d|] eqn:Hd.
  2: { pose proof (Volume_new_dangling P D L V front_matter venue_index sig_index
                     (or_intror (ex_intro _ p (conj Hp Hd)))) as Hw.
       by rewrite Hrun in Hw. }
  rewrite (Volume_new_run _ _ _ _ _ _ _ p d Hp Hd) in Hrun.
  unfold construction in Hrun. cbn zeta in Hrun.
  destruct (identifier _ _) as [i| |] eqn:Hi; try discriminate.
  set (d3 := <["sigs" := _]> _) in Hrun.
  assert (Hd3 : ∀ k, k ∉ ["url"; "venues"; "sigs"] → d3 !! k = inherited d !! k).
  { intros k Hk. subst d3. rewrite !lookup_insert_ne; [done|..];
      intros <-; apply Hk; set_solver. }
  destruct (d3 !! "title") as [[|t|]|] eqn:Htitle; try discriminate.
  exists p, d, i, t, d3. cbn zeta. split_and!; try done.
  - rewrite <- Hd3; [done | set_solver].
  - subst d3. rewrite !lookup_insert_ne by done. apply lookup_insert_eq.
  - destruct (starts_with_J_or_Q _); [by inversion Hrun|].
    by destruct (Paper.parent_volume_id p); inversion Hrun.
  - destruct (starts_with_J_or_Q _); [inversion Hrun; by py_lookup|].
    destruct (Paper.parent_volume_id p); inversion Hrun; by py_lookup.
  - destruct (starts_with_J_or_Q _); [by inversion Hrun|].
    by destruct (Paper.parent_volume_id p); inversion Hrun.
  - destruct (starts_with_J_or_Q _); [by inversion Hrun|].
    by destruct (Paper.parent_volume_id p); inversion Hrun.
Qed.
End construction_runs.

(** ** The attributes *)

Lemma inherited_editor d x :
  d !! "author" = Some x → inherited d !! "editor" = Some x.
Proof.
  intros Hx. unfold inherited. rewrite Hx.
  rewrite !lookup_delete_ne by done. apply lookup_insert_eq.
Qed.

Lemma inherited_author d : inherited d !! "author" = None.
Proof.
  unfold inherited. rewrite !lookup_delete_ne by done.
  destruct (d !! "author") eqn:Hx; [apply lookup_delete_eq | done].
Qed.

Lemma inherited_dropped d k :
  k ∈ ["revision"; "erratum"; "pages"] → inherited d !! k = None.
Proof.
  intros Hk. unfold inherited.
  repeat (apply elem_of_cons in Hk as [-> | Hk]);
    [..| by apply elem_of_nil in Hk];
    rewrite ?lookup_delete_eq, ?(lookup_delete_ne _ "pages"),
      ?lookup_delete_eq, ?(lookup_delete_ne _ "erratum"), ?lookup_delete_eq by done;
    done.
Qed.

Lemma inherited_other d k :
  k ∉ ["author"; "editor"; "revision"; "erratum"; "pages"] →
  inherited d !! k = d !! k.
Proof.
  intros Hk. unfold inherited.
  rewrite !lookup_delete_ne by (intros <-; apply Hk; set_solver).
  destruct (d !! "author"); [|done].
  rewrite lookup_delete_ne by (intros <-; apply Hk; set_solver).
  apply lookup_insert_ne. intros <-; apply Hk; set_solver.
Qed.

Lemma with_meta_other `{Collaborators} `{Unicode} top t d k :
  k ∉ ["meta_journal_title"; "meta_volume"; "meta_issue"] →
  with_meta top t d !! k = d !! k.
Proof.
  intros Hk. unfold with_meta.
  destruct (re_search issue_pattern t true), (re_search volume_pattern t true);
    rewrite !lookup_insert_ne; try done; intros <-; apply Hk; set_solver.
Qed.

(** ** The claims about identifiers and content *)

Lemma identifier_Ok top fmid i :
  identifier top fmid = Ok i →
  top ≠ "" ∧
  i = if starts_with_W top
      then top ++ "-" ++ str_prefix 2 fmid
      else top ++ "-" ++ str_prefix 1 fmid.
Proof.
  unfold identifier, starts_with_W, str_prefix.
  destruct top as [|c top']; [done|]. case_bool_decide.
  - by intros [= <-].
  - destruct fmid as [|c0 fmid']; [done|]. intros [= <-]. split; [done|].
    cbn [substring]. by destruct fmid'.
Qed.

Section claims.
Context `{Collaborators} `{Unicode}.

(** C1: the [full_id] of a constructed volume is its [top_level_id], a
    hyphen, and the first two characters of its [front_matter_id] when
    [top_level_id] starts with W, the first character only for every
    other prefix. *)
Theorem full_id_of_constructed_volume
    st st' front_matter venue_index sig_index self :
  Volume_new front_matter venue_index sig_index st = (Ok self, st') →
  ∃ v top fmid,
    volumes st' !! self = Some v ∧
    Volume.top_level_id v = Some top ∧
    Volume.front_matter_id v = Some fmid ∧
    full_id self st'
    = (Ok (if starts_with_W top
           then top ++ "-" ++ str_prefix 2 fmid
           else top ++ "-" ++ str_prefix 1 fmid), st').
Proof.
  intros Hrun.
  destruct (Volume_new_Ok_inv _ _ _ _ _ _ Hrun)
    as (p & d & i & t & d3 & Hp & Hd & Hi & _ & _ & _ & _ & HV & _).
  cbn zeta in *.
  eexists _, (Paper.top_level_id p), (Paper.paper_id p).
  assert (Hv : volumes st' !! self = Some
    (Volume.mk (Some (Paper.paper_id p)) (Some (Paper.top_level_id p))
       (Some (fresh (dom (dicts st)))) (Some (fresh (dom (lists st)))))).
  { rewrite HV. apply lookup_insert_eq. }
  split_and!; [exact Hv | done | done |].
  erewrite full_id_run by (first [exact Hv | done]).
  rewrite Hi. by destruct (identifier_Ok _ _ _ Hi) as [_ <-].
Qed.

(** C9: [full_id] raises [IndexError] exactly when [top_level_id] is
    empty, or [front_matter_id] is empty and [top_level_id] does not
    start with W; the workshop branch returns an identifier whatever the
    length of [front_matter_id], and so does the other branch when
    neither identifier is empty. *)
Theorem full_id_IndexError st self v top fmid :
  volumes st !! self = Some v →
  Volume.top_level_id v = Some top →
  Volume.front_matter_id v = Some fmid →
  (full_id self st = (Raise IndexError, st)
   ↔ top = "" ∨ (fmid = "" ∧ starts_with_W top = false)) ∧
  (starts_with_W top = true →
   full_id self st = (Ok (top ++ "-" ++ str_prefix 2 fmid), st)) ∧
  (top ≠ "" → fmid ≠ "" → ∃ i, full_id self st = (Ok i, st)).
Proof.
  intros Hv Ht Hf. rewrite (full_id_run st self v top fmid Hv Ht Hf).
  unfold identifier, starts_with_W, str_prefix.
  destruct top as [|c top'].
  - split_and!; [|done..]. split; [by left | done].
  - case_bool_decide.
    + split_and!; [| done | by eexists].
      split; [done | by intros [? | [_ ?]]].
    + destruct fmid as [|c0 fmid'].
      * split_and!; [| done | done]. split; [by right | done].
      * split_and!; [| done | by eexists].
        split; [done | by intros [? | [? _]]].
Qed.
End claims.

(** ** The claims about [append] *)

Section append_claims.
Context `{Collaborators} `{Unicode}.

(** Appending a paper that has no parent, to a volume that has an
    identifier: the paper is the last of [content], its identifier is
    among [paper_ids], and the volume is its parent. *)
Lemma append_free_paper st self paper v c ps p top fmid i :
  volumes st !! self = Some v →
  Volume.content v = Some c →
  Volume.top_level_id v = Some top →
  Volume.front_matter_id v = Some fmid →
  lists st !! c = Some ps →
  papers st !! paper = Some p →
  Paper.parent_volume_id p = None →
  identifier top fmid = Ok i →
  ∃ st', append self paper st = (Ok tt, st') ∧
         content_of st' self = Some (ps ++ [paper])%list ∧
         parent_of st' paper = Some (Some i) ∧
         full_id self st' = (Ok i, st').
Proof.
  intros Hv Hc Ht Hf Hps Hp Hn Hi. destruct st as [P D L V]. cbn in *.
  eexists. split; [by eapply append_run_free|].
  unfold content_of, parent_of. cbn. rewrite Hv. cbn. rewrite Hc. cbn.
  rewrite !lookup_insert_eq. split_and!; try done.
  erewrite full_id_run by eauto. by rewrite Hi.
Qed.

(** C3, as the code has it: appending a paper that has a parent raises
    [NameError], since nothing binds the name [log]; the paper has been
    added to [content], and its parent is what it was. *)
Theorem append_owned_paper_raises st self paper v c ps p x :
  volumes st !! self = Some v →
  Volume.content v = Some c →
  lists st !! c = Some ps →
  papers st !! paper = Some p →
  Paper.parent_volume_id p = Some x →
  ∃ st', append self paper st = (Raise (NameError "log"), st') ∧
         content_of st' self = Some (ps ++ [paper])%list ∧
         parent_of st' paper = Some (Some x).
Proof.
  intros Hv Hc Hps Hp Hx. destruct st as [P D L V]. cbn in *.
  eexists. split; [by eapply append_run_owned|].
  unfold content_of, parent_of. cbn. rewrite Hv, Hp. cbn. rewrite Hc, Hx. cbn.
  by rewrite lookup_insert_eq.
Qed.
End append_claims.

(** C2, as the code has it: on the volume P19-1 and a paper owned by
    P18-1, [append] does not return; afterwards the identifier of the paper
    is among [paper_ids], and its parent is still P18-1, not P19-1. *)
Theorem append_owned_paper_keeps_parent :
  let run := append (H := sample_collaborators) 0 1 owned_paper_store in
  fst run = Raise (NameError "log") ∧
  fst (full_id 0 (snd run)) = Ok "P19-1" ∧
  parent_of (snd run) 1 = Some (Some "P18-1") ∧
  fst (paper_ids (H := sample_collaborators) 0 (snd run)) = Ok ["P19-1000"; "P18-1001"].
Proof. vm_compute. done. Qed.

(** ** The claims about construction *)

Section construction_claims.
Context `{Collaborators} `{Unicode}.

(** C4: right after construction, [content] is empty when
    [top_level_id] starts with J or Q; otherwise it holds the front
    matter and nothing else, and the parent of the front matter is the
    [full_id] of the volume. *)
Theorem content_after_construction
    st st' front_matter venue_index sig_index self :
  Volume_new front_matter venue_index sig_index st = (Ok self, st') →
  ∃ v top i,
    volumes st' !! self = Some v ∧
    Volume.top_level_id v = Some top ∧
    full_id self st' = (Ok i, st') ∧
    if starts_with_J_or_Q top
    then content_of st' self = Some []
    else content_of st' self = Some [front_matter] ∧
         parent_of st' front_matter = Some (Some i).
Proof.
  intros Hrun.
  destruct (Volume_new_Ok_inv _ _ _ _ _ _ Hrun)
    as (p & d & i & t & d3 & Hp & Hd & Hi & _ & _ & _ & _ & HV & _ & Hrest).
  cbn zeta in *.
  assert (Hv : volumes st' !! self = Some
    (Volume.mk (Some (Paper.paper_id p)) (Some (Paper.top_level_id p))
       (Some (fresh (dom (dicts st)))) (Some (fresh (dom (lists st)))))).
  { rewrite HV. apply lookup_insert_eq. }
  eexists _, (Paper.top_level_id p), i. split_and!; [exact Hv | done | |].
  { erewrite full_id_run by (first [exact Hv | done]). by rewrite Hi. }
  unfold content_of, parent_of. rewrite Hv. cbn.
  destruct (starts_with_J_or_Q _).
  - destruct Hrest as [-> _]. apply lookup_insert_eq.
  - destruct Hrest as (-> & _ & ->). by rewrite !lookup_insert_eq.
Qed.

(** The attributes of a constructed volume, next to those of its front
    matter. *)
Lemma attrib_after_construction
    st st' front_matter venue_index sig_index self :
  Volume_new front_matter venue_index sig_index st = (Ok self, st') →
  ∃ d d',
    paper_attrib_of st front_matter = Some d ∧
    attrib_of st' self = Some d' ∧
    ∀ k, k ∉ ["url"; "venues"; "sigs";
              "meta_journal_title"; "meta_volume"; "meta_issue"] →
         d' !! k = inherited d !! k.
Proof.
  intros Hrun.
  destruct (Volume_new_Ok_inv _ _ _ _ _ _ Hrun)
    as (p & d & i & t & d3 & Hp & Hd & _ & _ & Hd3 & _ & _ & HV & HD & _).
  cbn zeta in *.
  exists d, (with_meta (Paper.top_level_id p) t d3). split_and!.
  - unfold paper_attrib_of. by rewrite Hp.
  - unfold attrib_of. rewrite HV, lookup_insert_eq. cbn.
    rewrite HD. apply lookup_insert_eq.
  - intros k Hk. rewrite with_meta_other by set_solver.
    apply Hd3. set_solver.
Qed.

(** C5: when the attributes of the front matter have an author, those of
    the constructed volume have that value as editor, and no author. *)
Theorem author_becomes_editor
    st st' front_matter venue_index sig_index self d x :
  paper_attrib_of st front_matter = Some d →
  d !! "author" = Some x →
  Volume_new front_matter venue_index sig_index st = (Ok self, st') →
  ∃ d', attrib_of st' self = Some d' ∧
        d' !! "editor" = Some x ∧
        d' !! "author" = None.
Proof.
  intros Hd Hx Hrun.
  destruct (attrib_after_construction _ _ _ _ _ _ Hrun)
    as (d0 & d' & Hd0 & Hd' & Hsame).
  assert (d0 = d) as -> by congruence.
  exists d'. split_and!; [done| |].
  - rewrite Hsame by set_solver. by apply inherited_editor.
  - rewrite Hsame by set_solver. apply inherited_author.
Qed.

(** C6: the attributes of a constructed volume have none of revision,
    erratum and pages, whatever those of the front matter had. *)
Theorem paper_fields_left_out
    st st' front_matter venue_index sig_index self :
  Volume_new front_matter venue_index sig_index st = (Ok self, st') →
  ∃ d', attrib_of st' self = Some d' ∧
        d' !! "revision" = None ∧
        d' !! "erratum" = None ∧
        d' !! "pages" = None.
Proof.
  intros Hrun.
  destruct (attrib_after_construction _ _ _ _ _ _ Hrun)
    as (d0 & d' & Hd0 & Hd' & Hsame).
  exists d'. split_and!; [done|..];
    rewrite Hsame by set_solver; apply inherited_dropped; set_solver.
Qed.
End construction_claims.

(** ** The front matter keeps its attributes; a front matter without title *)

Section frame_claims.
Context `{Collaborators} `{Unicode}.

(** Whatever the outcome, construction writes one dictionary, a new one,
    and leaves the attribute reference of the front matter as it is. *)
Lemma construction_frame P D L V self front_matter venue_index sig_index v0 p d o st' :
  P !! front_matter = Some p →
  construction P D L V self front_matter venue_index sig_index v0 p d = (o, st') →
  (∃ da, dicts st' = <[fresh (dom D) := da]> D) ∧
  (Paper.attrib <$> papers st' !! front_matter = Some (Paper.attrib p)) ∧
  (∃ v, volumes st' !! self = Some v ∧ Volume.attrib v = Some (fresh (dom D))).
Proof.
  intros Hp. unfold construction. cbn zeta.
  repeat case_match; intros [= <- <-]; cbn;
    rewrite ?lookup_insert_eq, ?Hp; split_and!; by eauto.
Qed.

(** C8: construction copies the attributes of the front matter into a
    dictionary that did not exist before, and changes no dictionary that
    did: the attributes of the front matter are afterwards what they
    were, author, revision, erratum and pages included. *)
Theorem front_matter_attrib_untouched
    st front_matter venue_index sig_index d o st' :
  paper_attrib_of st front_matter = Some d →
  Volume_new front_matter venue_index sig_index st = (o, st') →
  paper_attrib_of st' front_matter = Some d ∧
  (∀ l, l ∈ dom (dicts st) → dicts st' !! l = dicts st !! l) ∧
  (∀ self, o = Ok self →
     ∃ v a, volumes st' !! self = Some v ∧ Volume.attrib v = Some a ∧
            a ∉ dom (dicts st)).
Proof.
  unfold paper_attrib_of. destruct st as [P D L V]. cbn [papers dicts].
  destruct (P !! front_matter) as [p|] eqn:Hp; [cbn [mbind option_bind] | done].
  intros Hd Hrun.
  rewrite (Volume_new_run _ _ _ _ _ _ _ p d Hp Hd) in Hrun. cbn zeta in Hrun.
  destruct (construction _ _ _ _ _ _ _ _ _ _ _) as [o0 st0] eqn:Hc.
  destruct (construction_frame _ _ _ _ _ _ _ _ _ _ _ _ _ Hp Hc)
    as ([da HD] & HP & v & Hv & Ha).
  assert (Hfresh : fresh (dom D) ∉ dom D) by apply is_fresh.
  assert (st' = st0) as -> by (by destruct o0; inversion Hrun).
  split_and!.
  - destruct (papers st0 !! front_matter) as [p'|]; [|done].
    cbn in *. injection HP as ->. rewrite HD.
    rewrite lookup_insert_ne; [done|].
    intros E. apply Hfresh. rewrite E. apply elem_of_dom. eauto.
  - intros l Hl. rewrite HD. apply lookup_insert_ne. by intros <-.
  - intros self ->. destruct o0; inversion Hrun; subst. eauto.
Qed.

(** C10, amended: a front matter without title cannot be constructed
    from.  When its identifiers give a [full_id], construction raises
    [KeyError] for the title, with url, venues and sigs set and
    [content] not assigned; when they do not, the [IndexError] of
    [full_id] comes first. *)
Theorem construction_without_title st front_matter venue_index sig_index p d :
  papers st !! front_matter = Some p →
  dicts st !! Paper.attrib p = Some d →
  d !! "title" = None →
  let self := fresh (dom (volumes st)) in
  match identifier (Paper.top_level_id p) (Paper.paper_id p) with
  | Ok i =>
      ∃ st' v d',
        Volume_new front_matter venue_index sig_index st
        = (Raise (KeyError "title"), st') ∧
        volumes st' !! self = Some v ∧
        Volume.content v = None ∧
        attrib_of st' self = Some d' ∧
        d' !! "url" = Some (VStr (ANTHOLOGY_URL_format i)) ∧
        is_Some (d' !! "venues") ∧
        is_Some (d' !! "sigs") ∧
        d' !! "meta_journal_title" = d !! "meta_journal_title"
  | _ =>
      fst (Volume_new front_matter venue_index sig_index st) = Raise IndexError
  end.
Proof.
  destruct st as [P D L V]. cbn [papers dicts lists volumes].
  intros Hp Hd Htitle.
  rewrite (Volume_new_run _ _ _ _ _ _ _ p d Hp Hd). cbn zeta.
  unfold construction. cbn zeta.
  destruct (identifier _ _) as [i|e|] eqn:Hi.
  - rewrite !lookup_insert_ne by done.
    rewrite inherited_other by set_solver. rewrite Htitle.
    eexists _, _, _. split; [reflexivity|].
    cbn [volumes dicts]. rewrite insert_insert_eq.
    split; [apply lookup_insert_eq|]. split; [reflexivity|].
    split.
    { unfold attrib_of. cbn [volumes dicts]. rewrite lookup_insert_eq.
      cbn. apply lookup_insert_eq. }
    split_and!.
    + rewrite !lookup_insert_ne by done. apply lookup_insert_eq.
    + rewrite lookup_insert_ne by done. rewrite lookup_insert_eq. eauto.
    + rewrite lookup_insert_eq. eauto.
    + rewrite !lookup_insert_ne by done. apply inherited_other. set_solver.
  - cbn. unfold identifier in Hi. repeat case_match; congruence.
  - unfold identifier in Hi. repeat case_match; congruence.
Qed.
End frame_claims.

(** ** Regular expressions: what the matcher finds *)

Section matcher_properties.
Context `{Unicode}.

Lemma elem_of_star_ways ic a g s w :
  w ∈ star_ways ic a g s ↔
  s = (consumed w ++ remaining w)%list ∧ captured w = g ∧
  Forall (λ x, atom_match ic a x = true) (consumed w).
Proof.
  revert w. induction s as [|x s IH]; intros w; cbn [star_ways].
  - rewrite list_elem_of_singleton. split.
    + intros ->. by cbn.
    + intros (Hs & Hg & _). destruct w as [u g' rest]. cbn in *.
      symmetry in Hs. apply app_eq_nil in Hs as [-> ->]. by subst.
  - destruct (atom_match ic a x) eqn:Hx.
    + rewrite elem_of_app, list_elem_of_fmap, list_elem_of_singleton. split.
      * intros [(w' & -> & Hw') | ->].
        -- apply IH in Hw' as (-> & <- & Hall). cbn. split_and!; [done..|].
           by constructor.
        -- by cbn.
      * intros (Hs & Hg & Hall). destruct w as [u g' rest]. cbn in *. subst g'.
        destruct u as [|y u]; cbn in *.
        -- right. by subst.
        -- left. injection Hs as <- ->. exists (mkWay u g rest). split; [done|].
           apply IH. cbn. split_and!; [done..|]. by inversion Hall.
    + rewrite list_elem_of_singleton. split.
      * intros ->. by cbn.
      * intros (Hs & Hg & Hall). destruct w as [u g' rest]. cbn in *. subst g'.
        destruct u as [|y u]; cbn in *; [by subst|].
        injection Hs as <- ->. inversion Hall; congruence.
Qed.

(** Every way the matcher lists is a split of the input into a word of the
    pattern and the rest. *)
Lemma ways_sound ic r g s w :
  w ∈ ways ic r g s →
  s = (consumed w ++ remaining w)%list ∧ lang ic r (consumed w).
Proof.
  revert g s w. induction r as [|a|r1 IH1 r2 IH2|r1 IH1 r2 IH2|a|a|r IH|n r IH];
    intros g s w; cbn [ways lang].
  - rewrite list_elem_of_singleton. by intros ->.
  - destruct s as [|x s]; [by rewrite elem_of_nil|].
    destruct (atom_match ic a x) eqn:Hx; [|by rewrite elem_of_nil].
    rewrite list_elem_of_singleton. intros ->. cbn. eauto.
  - rewrite list_elem_of_bind. intros (w1 & Hw & Hw1).
    apply list_elem_of_fmap in Hw as (w2 & -> & Hw2).
    apply IH1 in Hw1 as [-> H1]. apply IH2 in Hw2 as [E2 H2]. cbn.
    rewrite E2. rewrite <- app_assoc. eauto 6.
  - rewrite elem_of_app. intros [Hw | Hw]; [apply IH1 in Hw | apply IH2 in Hw];
      naive_solver.
  - intros Hw. apply elem_of_star_ways in Hw. naive_solver.
  - destruct s as [|x s]; [by rewrite elem_of_nil|].
    destruct (atom_match ic a x) eqn:Hx; [|by rewrite elem_of_nil].
    rewrite list_elem_of_fmap. intros (w' & -> & Hw').
    apply elem_of_star_ways in Hw' as (-> & _ & Hall). cbn.
    split_and!; [done..|]. by constructor.
  - rewrite elem_of_app, list_elem_of_singleton.
    intros [Hw | ->]; [apply IH in Hw; naive_solver | by cbn; eauto].
  - rewrite list_elem_of_fmap. intros (w' & -> & Hw'). cbn. eauto.
Qed.

(** Every such split is among the ways the matcher lists. *)
Lemma ways_complete ic r u :
  lang ic r u →
  ∀ g rest, ∃ w, w ∈ ways ic r g (u ++ rest) ∧ consumed w = u ∧ remaining w = rest.
Proof.
  revert u. induction r as [|a|r1 IH1 r2 IH2|r1 IH1 r2 IH2|a|a|r IH|n r IH];
    intros u; cbn [ways lang].
  - intros -> g rest. exists (mkWay [] g rest). by rewrite list_elem_of_singleton.
  - intros (x & -> & Hx) g rest. cbn. rewrite Hx.
    exists (mkWay [x] g rest). by rewrite list_elem_of_singleton.
  - intros (u1 & u2 & -> & H1 & H2) g rest.
    destruct (IH1 _ H1 g (u2 ++ rest)%list) as (w1 & Hw1 & E1 & R1).
    destruct (IH2 _ H2 (captured w1) rest) as (w2 & Hw2 & E2 & R2).
    exists (after (consumed w1) w2). rewrite <- app_assoc. split_and!.
    + apply list_elem_of_bind. exists w1. split; [|done].
      apply list_elem_of_fmap. exists w2. by rewrite R1.
    + cbn. by rewrite E1, E2.
    + done.
  - intros [H1 | H2] g rest.
    + destruct (IH1 _ H1 g rest) as (w & Hw & ?). exists w. rewrite elem_of_app. eauto.
    + destruct (IH2 _ H2 g rest) as (w & Hw & ?). exists w. rewrite elem_of_app. eauto.
  - intros Hall g rest. exists (mkWay u g rest). split; [|done].
    by apply elem_of_star_ways.
  - intros [Hne Hall] g rest. destruct u as [|x u]; [done|]. cbn.
    inversion Hall as [|? ? Hx Hall']; subst. rewrite Hx.
    exists (extend x (mkWay u g rest)). split; [|done].
    apply list_elem_of_fmap. eexists. split; [done|]. by apply elem_of_star_ways.
  - intros [Hr | ->] g rest.
    + destruct (IH _ Hr g rest) as (w & Hw & ?). exists w. rewrite elem_of_app. eauto.
    + exists (mkWay [] g rest). rewrite elem_of_app, list_elem_of_singleton. eauto.
  - intros Hr g rest. destruct (IH _ Hr g rest) as (w & Hw & E & R).
    exists (capture n w). split; [|done]. apply list_elem_of_fmap. eauto.
Qed.

Lemma search_from_None ic r pos s :
  search_from ic r pos s = None →
  ∀ pre suf, s = (pre ++ suf)%list → ways ic r ∅ suf = [].
Proof.
  revert pos. induction s as [|x s IH]; intros pos; cbn [search_from];
    destruct (ways ic r ∅ _) eqn:Hw; try done; intros Hs pre suf E.
  - symmetry in E. apply app_eq_nil in E as [-> ->]. done.
  - destruct pre as [|y pre]; cbn in E; [by subst|].
    injection E as <- ->. by eapply IH.
Qed.

(** What [re.search] returns: the first way at the leftmost position that
    has one. *)
Lemma search_from_Some ic r pos s m :
  search_from ic r pos s = Some m →
  ∃ pre suf tl,
    s = (pre ++ suf)%list ∧
    start m = pos + length pre ∧
    ways ic r ∅ suf = found m :: tl ∧
    ∀ pre1 suf1, s = (pre1 ++ suf1)%list → length pre1 < length pre →
                 ways ic r ∅ suf1 = [].
Proof.
  revert pos. induction s as [|x s IH]; intros pos; cbn [search_from];
    destruct (ways ic r ∅ _) as [|w tl] eqn:Hw; try done.
  - intros [= <-]. exists [], [], tl. cbn. split_and!; [done | lia | done |].
    intros ? ? _ ?. lia.
  - intros Hs. apply IH in Hs as (pre & suf & tl & -> & Hstart & Hways & Hleft).
    exists (x :: pre), suf, tl. cbn. split_and!; [done | lia | done |].
    intros pre1 suf1 E Hlen. destruct pre1 as [|y pre1]; cbn in *; [by subst|].
    injection E as <- E. apply (Hleft pre1 suf1 E). lia.
  - intros [= <-]. exists [], (x :: s), tl. cbn. split_and!; [done | lia | done |].
    intros ? ? _ ?. lia.
Qed.

Lemma search_from_is_Some ic r pos s :
  is_Some (search_from ic r pos s) ↔ occurs ic r s.
Proof.
  split.
  - intros [m Hm]. apply search_from_Some in Hm as (pre & suf & tl & -> & _ & Hw & _).
    assert (Hin : found m ∈ ways ic r ∅ suf) by (rewrite Hw; left).
    apply ways_sound in Hin as [-> Hlang]. by eexists _, _, _.
  - intros (pre & u & rest & -> & Hlang).
    destruct (search_from ic r pos _) eqn:Hs; [eauto|].
    pose proof (search_from_None _ _ _ _ Hs pre (u ++ rest)%list eq_refl) as Hnil.
    destruct (ways_complete _ _ _ Hlang ∅ rest) as (w & Hw & _).
    rewrite Hnil in Hw. by apply elem_of_nil in Hw.
Qed.

Lemma lang_word cs u :
  lang true (word cs) u ↔ Forall2 (λ c x, same_letter c x = true) cs u.
Proof.
  revert u. induction cs as [|c cs IH]; intros u; cbn [word lang].
  - split; [by intros -> | by intros ->%Forall2_nil_inv_l].
  - split.
    + intros (u1 & u2 & -> & (x & -> & Hx) & Hu2). cbn in *.
      constructor; [done | by apply IH].
    + intros (x & u' & Hx & Hu & ->)%Forall2_cons_inv_l.
      exists [x], u'. split_and!; [done | | by apply IH].
      by exists x.
Qed.

Lemma lang_lit kw u : lang true (lit kw) u ↔ same_word kw u.
Proof. apply lang_word. Qed.

Lemma lang_volume_pattern u :
  lang true volume_pattern u ↔
  ∃ kw ws ds, u = (kw ++ ws ++ ds)%list ∧ same_word "Volume" kw ∧
              all_spaces ws ∧ ds ≠ [] ∧ all_digits ds.
Proof.
  unfold volume_pattern. cbn [lang]. setoid_rewrite lang_lit. split.
  - intros (kw & ? & -> & Hkw & ws & ds & -> & Hws & Hne & Hds).
    by exists kw, ws, ds.
  - intros (kw & ws & ds & -> & Hkw & Hws & Hne & Hds).
    exists kw, (ws ++ ds)%list. split_and!; [done..|]. by exists ws, ds.
Qed.

Lemma lang_issue_pattern u :
  lang true issue_pattern u ↔
  ∃ kw ws ds tail, u = (kw ++ ws ++ ds ++ tail)%list ∧
                   (same_word "Number" kw ∨ same_word "Issue" kw) ∧
                   all_spaces ws ∧ issue_string ds tail.
Proof.
  unfold issue_pattern, issue_string. cbn [lang]. setoid_rewrite lang_lit. split.
  - intros (kw & ? & -> & Hkw & ws & ? & -> & Hws & ds & ? & -> & [Hne Hds]
            & hy & ds2 & -> & Hhy & Hds2).
    destruct Hhy as [(x & -> & Hx) | ->].
    + exists kw, ws, ds, (hyphen :: ds2). split_and!; try done; [|by eauto].
      cbn in Hx. by apply hyphen_has_no_case in Hx as ->.
    + exists kw, ws, (ds ++ ds2)%list, []. rewrite app_nil_r. split_and!; try done.
      * by destruct ds.
      * by apply Forall_app.
      * by left.
  - intros (kw & ws & ds & tail & -> & Hkw & Hws & Hne & Hds & Htail).
    exists kw, (ws ++ ds ++ tail)%list. split_and!; [done..|].
    exists ws, (ds ++ tail)%list. split_and!; [done..|].
    exists ds, tail. split_and!; [done..|].
    destruct Htail as [-> | (ds2 & -> & Hds2)].
    + exists [], []. split_and!; [done | by right | done].
    + exists [hyphen], ds2. split_and!; [done | | done].
      left. exists hyphen. split; [done|]. cbn. by apply hyphen_has_no_case.
Qed.

(** ** The first way *)

Lemma star_ways_nonempty ic a g s : ∃ w tl, star_ways ic a g s = w :: tl.
Proof.
  induction s as [|x s (w & tl & IH)]; cbn [star_ways]; [by eauto|].
  destruct (atom_match ic a x); [|by eauto].
  rewrite IH. csimpl. eauto.
Qed.

(** The first way of a repetition takes all it can. *)
Lemma star_ways_head ic a g s w tl :
  star_ways ic a g s = w :: tl →
  match remaining w with
  | x :: _ => atom_match ic a x = false
  | [] => True
  end.
Proof.
  revert w tl. induction s as [|x s IH]; intros w tl; cbn [star_ways].
  - by intros [= <- <-].
  - destruct (atom_match ic a x) eqn:Hx; [|by intros [= <- <-]].
    destruct (star_ways_nonempty ic a g s) as (w' & tl' & E). rewrite E. csimpl.
    intros [= <- <-]. cbn. by eapply IH.
Qed.

Lemma star_ways_head_elem ic a g s w tl :
  star_ways ic a g s = w :: tl →
  s = (consumed w ++ remaining w)%list ∧ captured w = g ∧
  Forall (λ x, atom_match ic a x = true) (consumed w).
Proof. intros E. apply elem_of_star_ways. rewrite E. left. Qed.

(** The first way of a sequence: some way of the first part, and the
    first way of the second part after it. *)
Lemma ways_seq_head ic r1 r2 g s w tl :
  ways ic (Seq r1 r2) g s = w :: tl →
  ∃ w1 w2 tl2,
    w1 ∈ ways ic r1 g s ∧
    ways ic r2 (captured w1) (remaining w1) = w2 :: tl2 ∧
    w = after (consumed w1) w2.
Proof.
  cbn [ways]. generalize (ways ic r1 g s). intros l. revert w tl.
  induction l as [|w1 l IH]; intros w tl; csimpl; [done|].
  destruct (ways ic r2 (captured w1) (remaining w1)) as [|w2 tl2] eqn:E2; csimpl.
  - intros Hl. destruct (IH _ _ Hl) as (w1' & w2' & tl2' & Hin & Hw2 & ->).
    exists w1', w2', tl2'. split_and!; [by right | done | done].
  - intros [= <- <-]. exists w1, w2, tl2. split_and!; [by left | done | done].
Qed.

Lemma ways_word_captured ic cs g s w :
  w ∈ ways ic (word cs) g s → captured w = g.
Proof.
  revert g s w. induction cs as [|c cs IH]; intros g s w; cbn [word ways].
  - rewrite list_elem_of_singleton. by intros ->.
  - rewrite list_elem_of_bind. intros (w1 & Hw & Hw1).
    apply list_elem_of_fmap in Hw as (w2 & -> & Hw2). cbn.
    apply IH in Hw2 as ->.
    destruct s as [|x s]; [by apply elem_of_nil in Hw1|].
    destruct (atom_match ic (Lit c) x); [|by apply elem_of_nil in Hw1].
    apply list_elem_of_singleton in Hw1. by subst.
Qed.

(** The first way of the pattern of the volume number. *)
Lemma volume_pattern_head g s w tl :
  ways true volume_pattern g s = w :: tl →
  ∃ kw ws ds,
    s = (kw ++ ws ++ ds ++ remaining w)%list ∧
    same_word "Volume" kw ∧ all_spaces ws ∧ ds ≠ [] ∧ all_digits ds ∧
    no_digit_next (remaining w) ∧
    captured w !! 1 = Some ds.
Proof.
  intros Hw. unfold volume_pattern in Hw.
  apply ways_seq_head in Hw as (w1 & w' & tl' & Hw1 & Hw' & ->).
  apply ways_seq_head in Hw' as (w2 & w3 & tl3 & Hw2 & Hw3 & ->).
  pose proof (ways_word_captured _ _ _ _ _ Hw1) as Hg1.
  apply ways_sound in Hw1 as [-> Hkw]. apply lang_lit in Hkw.
  cbn [ways] in Hw2. apply elem_of_star_ways in Hw2 as (E2 & Hg2 & Hws).
  cbn [ways] in Hw3.
  destruct (remaining w2) as [|x s3] eqn:E3; [done|].
  cbn [atom_match] in Hw3. destruct (is_digit x) eqn:Hx; [|done].
  destruct (star_ways_nonempty true Digit (captured w2) s3) as (w5 & tl5 & E5).
  rewrite E5 in Hw3. csimpl in Hw3. injection Hw3 as <- _.
  pose proof (star_ways_head _ _ _ _ _ _ E5) as Hmax.
  apply star_ways_head_elem in E5 as (E5 & _ & Hds).
  exists (consumed w1), (consumed w2), (x :: consumed w5). cbn.
  split_and!; try done.
  - rewrite E2, E5. done.
  - by constructor.
  - apply lookup_insert_eq.
Qed.

(** The first way of the issue string: the digit run as long as it can
    be, the hyphen when there is one, the digits after it. *)
Lemma issue_number_head g s w tl :
  ways true (Seq (Plus Digit) (Seq (Opt (Atom (Lit hyphen))) (Star Digit))) g s
  = w :: tl →
  ∃ ds tail,
    s = (ds ++ tail ++ remaining w)%list ∧
    consumed w = (ds ++ tail)%list ∧
    captured w = g ∧
    issue_string ds tail ∧
    no_digit_next (tail ++ remaining w) ∧
    (tail = [] → ∀ rest', remaining w ≠ hyphen :: rest') ∧
    (tail ≠ [] → no_digit_next (remaining w)).
Proof.
  cbn [ways]. destruct s as [|x s']; [done|].
  cbn [atom_match]. destruct (is_digit x) eqn:Hx; [|done].
  destruct (star_ways_nonempty true Digit g s') as (w5 & tl5 & E5).
  rewrite E5. csimpl.
  pose proof (star_ways_head _ _ _ _ _ _ E5) as Hmax.
  apply star_ways_head_elem in E5 as (-> & Hg5 & Hds). rewrite Hg5.
  assert (Hrun : all_digits (x :: consumed w5)) by (by constructor).
  destruct (remaining w5) as [|y r'] eqn:Er.
  - csimpl. intros [= <- _]. exists (x :: consumed w5), []. cbn.
    rewrite !app_nil_r. split_and!; try done.
    unfold issue_string. split_and!; [done.. | by left].
  - cbn [atom_match] in *.
    destruct (same_letter hyphen y) eqn:Hy.
    + apply hyphen_has_no_case in Hy as ->.
      destruct (star_ways_nonempty true Digit g r') as (w6 & tl6 & E6).
      csimpl. rewrite E6. csimpl. intros [= <- _].
      pose proof (star_ways_head _ _ _ _ _ _ E6) as Hmax6.
      apply star_ways_head_elem in E6 as (-> & Hg6 & Hds6).
      exists (x :: consumed w5), (hyphen :: consumed w6). cbn.
      split_and!; try done.
      unfold issue_string. split_and!; [done..|]. right. by eexists.
    + csimpl. cbn [star_ways atom_match]. rewrite Hmax. csimpl.
      intros [= <- _]. exists (x :: consumed w5), []. cbn.
      rewrite !app_nil_r. split_and!; try done.
      * unfold issue_string. split_and!; [done.. | by left].
      * intros _ rest' [= -> _].
        rewrite (proj2 (hyphen_has_no_case hyphen) eq_refl) in Hy. done.
Qed.

Lemma ways_group ic n r g s :
  ways ic (Group n r) g s = capture n <$> ways ic r g s.
Proof. done. Qed.

(** The first way of the pattern of the issue number. *)
Lemma issue_pattern_head g s w tl :
  ways true issue_pattern g s = w :: tl →
  ∃ kw ws ds tail,
    s = (kw ++ ws ++ (ds ++ tail) ++ remaining w)%list ∧
    (same_word "Number" kw ∨ same_word "Issue" kw) ∧ all_spaces ws ∧
    issue_string ds tail ∧
    no_digit_next (tail ++ remaining w) ∧
    (tail = [] → ∀ rest', remaining w ≠ hyphen :: rest') ∧
    (tail ≠ [] → no_digit_next (remaining w)) ∧
    captured w !! 2 = Some (ds ++ tail)%list.
Proof.
  intros Hw. unfold issue_pattern in Hw.
  apply ways_seq_head in Hw as (w1 & w' & tl' & Hw1 & Hw' & ->).
  apply ways_seq_head in Hw' as (w2 & w3 & tl3 & Hw2 & Hw3 & ->).
  apply ways_sound in Hw1 as [-> Hkw]. cbn [lang] in Hkw.
  rewrite !lang_lit in Hkw.
  cbn [ways] in Hw2. apply elem_of_star_ways in Hw2 as (E2 & Hg2 & Hws).
  rewrite ways_group in Hw3.
  destruct (ways true (Seq _ _) _ _) as [|w4 tl4] eqn:E4; [done|].
  csimpl in Hw3. injection Hw3 as <- _.
  apply issue_number_head in E4
    as (ds & tail & E4 & Hc & _ & Hissue & Hnext & Hnil & Hcons).
  exists (consumed w1), (consumed w2), ds, tail. cbn.
  split_and!; try done.
  - rewrite E2, E4. by rewrite <- !app_assoc.
  - rewrite Hc. apply lookup_insert_eq.
Qed.

Lemma has_volume_number_occurs t :
  has_volume_number t ↔ occurs true volume_pattern t.
Proof.
  unfold has_volume_number, volume_at, occurs. split.
  - intros (pre & kw & ws & ds & rest & -> & ?).
    exists pre, (kw ++ ws ++ ds)%list, rest. split.
    + by rewrite <- !app_assoc.
    + apply lang_volume_pattern. by exists kw, ws, ds.
  - intros (pre & u & rest & -> & Hu).
    apply lang_volume_pattern in Hu as (kw & ws & ds & -> & ?).
    exists pre, kw, ws, ds, rest. split; [|done]. by rewrite <- !app_assoc.
Qed.

Lemma has_issue_number_occurs t :
  has_issue_number t ↔ occurs true issue_pattern t.
Proof.
  unfold has_issue_number, issue_at, occurs. split.
  - intros (pre & kw & ws & ds & tail & rest & -> & ?).
    exists pre, (kw ++ ws ++ ds ++ tail)%list, rest. split.
    + by rewrite <- !app_assoc.
    + apply lang_issue_pattern. by exists kw, ws, ds, tail.
  - intros (pre & u & rest & -> & Hu).
    apply lang_issue_pattern in Hu as (kw & ws & ds & tail & -> & ?).
    exists pre, kw, ws, ds, tail, rest. split; [|done]. by rewrite <- !app_assoc.
Qed.

(** No occurrence starts before the match. *)
Lemma leftmost ic r s (pre pre1 u1 rest1 : list N) :
  (∀ p1 s1, s = (p1 ++ s1)%list → (length p1 < length pre)%nat →
            ways ic r ∅ s1 = []) →
  s = (pre1 ++ u1 ++ rest1)%list →
  lang ic r u1 →
  (length pre ≤ length pre1)%nat.
Proof.
  intros Hleft E Hu1.
  destruct (decide (length pre1 < length pre)%nat) as [Hlt|]; [|lia].
  pose proof (Hleft _ _ E Hlt) as Hnil.
  destruct (ways_complete _ _ _ Hu1 ∅ rest1) as (w & Hw & _).
  rewrite Hnil in Hw. by apply elem_of_nil in Hw.
Qed.

(** What the search for the volume number finds. *)
Lemma search_volume t :
  match re_search volume_pattern t true with
  | Some m => ∃ ds, group m 1 = VStr ds ∧ captured_volume t ds
  | None => ¬ has_volume_number t
  end.
Proof.
  unfold re_search. destruct (search_from _ _ _ _) as [m|] eqn:Hs.
  - apply search_from_Some in Hs as (pre & suf & tl & E & _ & Hw & Hleft).
    apply volume_pattern_head in Hw
      as (kw & ws & ds & -> & Hkw & Hws & Hne & Hds & Hnext & Hg).
    exists ds. unfold group. rewrite Hg. split; [done|].
    exists pre, kw, ws, (remaining (found m)). split_and!; [done..|].
    intros pre1 kw1 ws1 ds1 rest1 (E1 & ?).
    eapply (leftmost true volume_pattern _ pre pre1 (kw1 ++ ws1 ++ ds1)%list rest1).
    + exact Hleft.
    + rewrite E1. by rewrite <- !app_assoc.
    + apply lang_volume_pattern. by exists kw1, ws1, ds1.
  - intros Hv. apply has_volume_number_occurs in Hv.
    apply (search_from_is_Some _ _ 0) in Hv as [m Hm]. congruence.
Qed.

(** What the search for the issue number finds. *)
Lemma search_issue t :
  match re_search issue_pattern t true with
  | Some m => ∃ u, group m 2 = VStr u ∧ captured_issue t u
  | None => ¬ has_issue_number t
  end.
Proof.
  unfold re_search. destruct (search_from _ _ _ _) as [m|] eqn:Hs.
  - apply search_from_Some in Hs as (pre & suf & tl & E & _ & Hw & Hleft).
    apply issue_pattern_head in Hw
      as (kw & ws & ds & tail & -> & Hkw & Hws & Hissue & Hnext & Hnil & Hcons & Hg).
    exists (ds ++ tail)%list. unfold group. rewrite Hg. split; [done|].
    exists pre, kw, ws, ds, tail, (remaining (found m)). split_and!; [done..|].
    intros pre1 kw1 ws1 ds1 tail1 rest1 (E1 & ?).
    eapply (leftmost true issue_pattern _ pre pre1
              (kw1 ++ ws1 ++ ds1 ++ tail1)%list rest1).
    + exact Hleft.
    + rewrite E1. by rewrite <- !app_assoc.
    + apply lang_issue_pattern. by exists kw1, ws1, ds1, tail1.
  - intros Hv. apply has_issue_number_occurs in Hv.
    apply (search_from_is_Some _ _ 0) in Hv as [m Hm]. congruence.
Qed.

End matcher_properties.

(** ** The claim about the derived attributes *)

Lemma with_meta_volume `{Collaborators} `{Unicode} top t d :
  with_meta top t d !! "meta_volume"
  = match re_search volume_pattern t true with
    | Some m => Some (group m 1)
    | None => d !! "meta_volume"
    end.
Proof.
  unfold with_meta.
  destruct (re_search issue_pattern t true), (re_search volume_pattern t true);
    rewrite ?(lookup_insert_ne _ "meta_issue"), ?lookup_insert_eq,
      ?(lookup_insert_ne _ "meta_journal_title") by done; done.
Qed.

Lemma with_meta_issue `{Collaborators} `{Unicode} top t d :
  with_meta top t d !! "meta_issue"
  = match re_search issue_pattern t true with
    | Some m => Some (group m 2)
    | None => d !! "meta_issue"
    end.
Proof.
  unfold with_meta.
  destruct (re_search issue_pattern t true), (re_search volume_pattern t true);
    rewrite ?lookup_insert_eq, ?(lookup_insert_ne _ "meta_volume"),
      ?(lookup_insert_ne _ "meta_journal_title") by done; done.
Qed.

Section meta_claims.
Context `{Collaborators} `{Unicode}.

(** C7, amended: for every title, with white space, digits and the cases
    of a letter as the Unicode database has them, the derivation sets
    meta_volume exactly when the title
    contains, in any case, Volume followed by optional white space and
    one digit or more, to the digit run captured; it sets meta_issue
    exactly when the title contains Number or Issue followed by optional
    white space and an issue string, to the string captured; when a
    pattern does not match, the key is left as it was, so that a key
    that was absent before the derivation is present after it if and
    only if its pattern matches. *)
Theorem meta_info_derivation st self v top a d t :
  volumes st !! self = Some v →
  Volume.top_level_id v = Some top →
  Volume.attrib v = Some a →
  dicts st !! a = Some d →
  d !! "title" = Some (VStr t) →
  ∃ st' d',
    _set_meta_info self st = (Ok tt, st') ∧
    attrib_of st' self = Some d' ∧
    (has_volume_number t →
     ∃ ds, d' !! "meta_volume" = Some (VStr ds) ∧
           captured_volume t ds) ∧
    (¬ has_volume_number t → d' !! "meta_volume" = d !! "meta_volume") ∧
    (d !! "meta_volume" = None →
     (is_Some (d' !! "meta_volume") ↔ has_volume_number t)) ∧
    (has_issue_number t →
     ∃ u, d' !! "meta_issue" = Some (VStr u) ∧
          captured_issue t u) ∧
    (¬ has_issue_number t → d' !! "meta_issue" = d !! "meta_issue") ∧
    (d !! "meta_issue" = None →
     (is_Some (d' !! "meta_issue") ↔ has_issue_number t)).
Proof.
  intros Hv Ht Ha Hd Htitle. destruct st as [P D L V]. cbn [volumes dicts] in *.
  exists (mkStore P (<[a := with_meta top t d]> D) L V), (with_meta top t d).
  split; [by eapply set_meta_info_run_str|].
  split.
  { unfold attrib_of. cbn [volumes dicts]. rewrite Hv. cbn. rewrite Ha. cbn.
    apply lookup_insert_eq. }
  rewrite with_meta_volume, with_meta_issue.
  pose proof (search_volume t) as Hvol. pose proof (search_issue t) as Hiss.
  assert (Hhas_v : ∀ ds, captured_volume t ds → has_volume_number t).
  { intros ds (pre & kw & ws & rest & Hat & _). by exists pre, kw, ws, ds, rest. }
  assert (Hhas_i : ∀ u, captured_issue t u → has_issue_number t).
  { intros u (pre & kw & ws & ds & tail & rest & _ & Hat & _).
    by exists pre, kw, ws, ds, tail, rest. }
  destruct (re_search volume_pattern t true) as [mv|];
    destruct (re_search issue_pattern t true) as [mi|].
  all: repeat match goal with
         | Hx : ∃ _, _ ∧ _ |- _ => destruct Hx as (? & -> & ?)
         end.
  all: split_and!; try done; eauto.
  all: try (intros _; split; [intros _; by eauto | by eauto]).
  all: try (intros ->; split; [by intros [? ?] | done]).
  all: intros Hno; destruct Hno; eauto.
Qed.
End meta_claims.

(** * The claims on the samples *)

Lemma full_id_of_constructed_volume_witness :
  let st' := snd (Volume_new (H := sample_collaborators) 0 tt tt sample_store) in
  Volume_new (H := sample_collaborators) 0 tt tt sample_store = (Ok 0, st') ∧
  ∃ v top fmid,
    volumes st' !! 0 = Some v ∧
    Volume.top_level_id v = Some top ∧
    Volume.front_matter_id v = Some fmid ∧
    full_id 0 st'
    = (Ok (if starts_with_W top
           then top ++ "-" ++ str_prefix 2 fmid
           else top ++ "-" ++ str_prefix 1 fmid), st').
Proof.
  cbv zeta. split; [vm_compute; reflexivity|].
  apply (@full_id_of_constructed_volume sample_collaborators sample_unicode sample_store _ 0 tt tt 0).
  vm_compute; reflexivity.
Defined.

Lemma full_id_IndexError_witness :
  volumes (bare_volume "" "1000") !! 0
  = Some (Volume.mk (Some "1000") (Some "") None None) ∧
  full_id 0 (bare_volume "" "1000") = (Raise IndexError, bare_volume "" "1000") ∧
  volumes (bare_volume "P19" "") !! 0
  = Some (Volume.mk (Some "") (Some "P19") None None) ∧
  full_id 0 (bare_volume "P19" "") = (Raise IndexError, bare_volume "P19" "") ∧
  volumes (bare_volume "W15" "") !! 0
  = Some (Volume.mk (Some "") (Some "W15") None None) ∧
  full_id 0 (bare_volume "W15" "") = (Ok "W15-", bare_volume "W15" "") ∧
  full_id 0 (bare_volume "W15" "") ≠ (Raise IndexError, bare_volume "W15" "") ∧
  volumes (bare_volume "W15" "1") !! 0
  = Some (Volume.mk (Some "1") (Some "W15") None None) ∧
  full_id 0 (bare_volume "W15" "1") = (Ok "W15-1", bare_volume "W15" "1").
Proof.
  destruct (full_id_IndexError (bare_volume "" "1000") 0
              (Volume.mk (Some "1000") (Some "") None None) "" "1000"
              eq_refl eq_refl eq_refl) as (Hempty & _ & _).
  destruct (full_id_IndexError (bare_volume "P19" "") 0
              (Volume.mk (Some "") (Some "P19") None None) "P19" ""
              eq_refl eq_refl eq_refl) as (Hshort & _ & _).
  destruct (full_id_IndexError (bare_volume "W15" "") 0
              (Volume.mk (Some "") (Some "W15") None None) "W15" ""
              eq_refl eq_refl eq_refl) as (Hnot & Hw0 & _).
  destruct (full_id_IndexError (bare_volume "W15" "1") 0
              (Volume.mk (Some "1") (Some "W15") None None) "W15" "1"
              eq_refl eq_refl eq_refl) as (_ & Hw1 & _).
  split; [reflexivity|]. split; [apply Hempty; left; reflexivity|].
  split; [reflexivity|].
  split; [apply Hshort; right; split; reflexivity|].
  split; [reflexivity|]. split; [exact (Hw0 eq_refl)|].
  split.
  { intros Hraise. apply Hnot in Hraise as [Htop | [_ Hw]]; discriminate. }
  split; [reflexivity|]. exact (Hw1 eq_refl).
Defined.

Lemma append_owned_paper_raises_witness :
  volumes owned_paper_store !! 0
  = Some (Volume.mk (Some "1000") (Some "P19") (Some 2) (Some 0)) ∧
  lists owned_paper_store !! 0 = Some [0] ∧
  papers owned_paper_store !! 1 = Some (Paper.mk "1001" "P18" 1 (Some "P18-1")) ∧
  ∃ st', append (H := sample_collaborators) 0 1 owned_paper_store
         = (Raise (NameError "log"), st') ∧
         content_of st' 0 = Some [0; 1] ∧
         parent_of st' 1 = Some (Some "P18-1").
Proof.
  split; [vm_compute; reflexivity|]. split; [vm_compute; reflexivity|]. split; [vm_compute; reflexivity|].
  apply (@append_owned_paper_raises sample_collaborators owned_paper_store 0 1
           (Volume.mk (Some "1000") (Some "P19") (Some 2) (Some 0)) 0 [0]
           (Paper.mk "1001" "P18" 1 (Some "P18-1")) "P18-1");
    vm_compute; reflexivity.
Defined.

Lemma content_after_construction_witness :
  let st' := snd (Volume_new (H := sample_collaborators) 0 tt tt sample_store) in
  Volume_new (H := sample_collaborators) 0 tt tt sample_store = (Ok 0, st') ∧
  ∃ v top i,
    volumes st' !! 0 = Some v ∧
    Volume.top_level_id v = Some top ∧
    full_id 0 st' = (Ok i, st') ∧
    if starts_with_J_or_Q top
    then content_of st' 0 = Some []
    else content_of st' 0 = Some [0] ∧ parent_of st' 0 = Some (Some i).
Proof.
  cbv zeta. split; [vm_compute; reflexivity|].
  apply (@content_after_construction sample_collaborators sample_unicode sample_store _ 0 tt tt 0).
  vm_compute; reflexivity.
Defined.

Lemma author_becomes_editor_witness :
  let st' := snd (Volume_new (H := sample_collaborators) 0 tt tt sample_store) in
  paper_attrib_of sample_store 0 = Some workshop_front_matter ∧
  workshop_front_matter !! "author" = Some (VStr "A. Editor") ∧
  Volume_new (H := sample_collaborators) 0 tt tt sample_store = (Ok 0, st') ∧
  ∃ d', attrib_of st' 0 = Some d' ∧
        d' !! "editor" = Some (VStr "A. Editor") ∧
        d' !! "author" = None.
Proof.
  cbv zeta. split; [vm_compute; reflexivity|]. split; [vm_compute; reflexivity|]. split; [vm_compute; reflexivity|].
  apply (@author_becomes_editor sample_collaborators sample_unicode sample_store _ 0 tt tt 0
           workshop_front_matter (VStr "A. Editor"));
    vm_compute; reflexivity.
Defined.

Lemma paper_fields_left_out_witness :
  let st' := snd (Volume_new (H := sample_collaborators) 0 tt tt sample_store) in
  Volume_new (H := sample_collaborators) 0 tt tt sample_store = (Ok 0, st') ∧
  ∃ d', attrib_of st' 0 = Some d' ∧
        d' !! "revision" = None ∧
        d' !! "erratum" = None ∧
        d' !! "pages" = None.
Proof.
  cbv zeta. split; [vm_compute; reflexivity|].
  apply (@paper_fields_left_out sample_collaborators sample_unicode sample_store _ 0 tt tt 0).
  vm_compute; reflexivity.
Defined.

Lemma front_matter_attrib_untouched_witness :
  let st' := snd (Volume_new (H := sample_collaborators) 0 tt tt sample_store) in
  paper_attrib_of sample_store 0 = Some workshop_front_matter ∧
  Volume_new (H := sample_collaborators) 0 tt tt sample_store = (Ok 0, st') ∧
  paper_attrib_of st' 0 = Some workshop_front_matter ∧
  (∀ l, l ∈ dom (dicts sample_store) → dicts st' !! l = dicts sample_store !! l) ∧
  (∀ self, Ok 0 = Ok self →
     ∃ v a, volumes st' !! self = Some v ∧ Volume.attrib v = Some a ∧
            a ∉ dom (dicts sample_store)).
Proof.
  cbv zeta. split; [vm_compute; reflexivity|]. split; [vm_compute; reflexivity|].
  apply (@front_matter_attrib_untouched sample_collaborators sample_unicode sample_store 0 tt tt
           workshop_front_matter (Ok 0) _);
    vm_compute; reflexivity.
Defined.

Lemma construction_without_title_witness :
  papers untitled_store !! 0 = Some (Paper.mk "1000" "P19" 0 None) ∧
  dicts untitled_store !! 0 = Some {[ "author" := VStr "A. Editor" ]} ∧
  ∃ st' v d',
    Volume_new (H := sample_collaborators) 0 tt tt untitled_store
    = (Raise (KeyError "title"), st') ∧
    volumes st' !! 0 = Some v ∧
    Volume.content v = None ∧
    attrib_of st' 0 = Some d' ∧
    d' !! "url" = Some (VStr "https://www.aclweb.org/anthology/P19-1") ∧
    is_Some (d' !! "venues") ∧
    is_Some (d' !! "sigs") ∧
    d' !! "meta_journal_title" = None.
Proof.
  split; [vm_compute; reflexivity|]. split; [vm_compute; reflexivity|].
  exact (@construction_without_title sample_collaborators sample_unicode untitled_store 0 tt tt
           (Paper.mk "1000" "P19" 0 None) {[ "author" := VStr "A. Editor" ]}
           eq_refl eq_refl eq_refl).
Defined.

Lemma meta_info_derivation_witness :
  let st := volume_with journal_issue in
  let t := "Computational Linguistics, Volume 16, Number 3-4" in
  volumes st !! 0 = Some (Volume.mk (Some "1000") (Some "J90") (Some 0) None) ∧
  dicts st !! 0 = Some journal_issue ∧
  journal_issue !! "title" = Some (VStr t) ∧
  ∃ st' d',
    _set_meta_info (H := sample_collaborators) 0 st = (Ok tt, st') ∧
    attrib_of st' 0 = Some d' ∧
    (has_volume_number t →
     ∃ ds, d' !! "meta_volume" = Some (VStr ds) ∧
           captured_volume t ds) ∧
    (¬ has_volume_number t → d' !! "meta_volume" = journal_issue !! "meta_volume") ∧
    (journal_issue !! "meta_volume" = None →
     (is_Some (d' !! "meta_volume") ↔ has_volume_number t)) ∧
    (has_issue_number t →
     ∃ u, d' !! "meta_issue" = Some (VStr u) ∧
          captured_issue t u) ∧
    (¬ has_issue_number t → d' !! "meta_issue" = journal_issue !! "meta_issue") ∧
    (journal_issue !! "meta_issue" = None →
     (is_Some (d' !! "meta_issue") ↔ has_issue_number t)).
Proof.
  cbv zeta. split; [vm_compute; reflexivity|]. split; [vm_compute; reflexivity|]. split; [vm_compute; reflexivity|].
  apply (@meta_info_derivation sample_collaborators sample_unicode (volume_with journal_issue) 0
           (Volume.mk (Some "1000") (Some "J90") (Some 0) None) "J90" 0
           journal_issue "Computational Linguistics, Volume 16, Number 3-4");
    vm_compute; reflexivity.
Defined.

(** The derivation on titles beyond ASCII: the fullwidth digit is the
    volume number, and Issue written with long s is found. *)
Lemma derivation_beyond_ascii :
  attrib_of (snd (_set_meta_info (H := sample_collaborators) 0
                    (volume_with fullwidth_volume))) 0 ≫= (.!! "meta_volume")
  = Some (VStr [65298%N]) ∧
  attrib_of (snd (_set_meta_info (H := sample_collaborators) 0
                    (volume_with long_s_issue))) 0 ≫= (.!! "meta_issue")
  = Some (VStr "3").
Proof. split; vm_compute; reflexivity. Qed.

(** C7 as stated, on attributes that come with a volume number under a
    title that has none: after the derivation the key is there, and the
    pattern does not match. *)
Lemma meta_volume_without_match :
  let run := _set_meta_info (H := sample_collaborators) 0 (volume_with stale_volume) in
  fst run = Ok tt ∧
  ∃ d', attrib_of (snd run) 0 = Some d' ∧
        ¬ (is_Some (d' !! "meta_volume") ↔ has_volume_number "Proceedings").
Proof.
  cbv zeta. split; [vm_compute; reflexivity|].
  exists (with_meta (H := sample_collaborators) "J90" "Proceedings" stale_volume).
  split; [vm_compute; reflexivity|].
  intros [Hhas _].
  assert (Hsome : is_Some (with_meta (H := sample_collaborators) "J90" "Proceedings"
                             stale_volume !! "meta_volume")).
  { exists (VStr "7"). vm_compute. reflexivity. }
  pose proof (search_volume "Proceedings") as Hnone.
  assert (Hs : re_search volume_pattern "Proceedings" true = None)
    by (vm_compute; reflexivity).
  rewrite Hs in Hnone. exact (Hnone (Hhas Hsome)).
Qed.

(** C10 as stated, on a front matter that has neither title nor
    collection: construction raises [IndexError], not [KeyError]. *)
Lemma untitled_front_matter_without_collection :
  paper_attrib_of unnamed_store 0 = Some {[ "author" := VStr "A. Editor" ]} ∧
  ({[ "author" := VStr "A. Editor" ]} : gmap string value) !! "title" = None ∧
  fst (Volume_new (H := sample_collaborators) 0 tt tt unnamed_store) = Raise IndexError ∧
  fst (Volume_new (H := sample_collaborators) 0 tt tt unnamed_store)
  ≠ Raise (KeyError "title").
Proof.
  split_and!; [vm_compute; reflexivity..|].
  vm_compute. discriminate.
Qed.

(** * Further properties *)

(** ** [get] and [get_title] *)

Lemma get_run st self v a d name dflt :
  volumes st !! self = Some v →
  Volume.attrib v = Some a →
  dicts st !! a = Some d →
  get self name dflt st = (Ok (default dflt (d !! name)), st).
Proof.
  intros Hv Ha Hd. destruct st as [P D L V]. cbn [volumes dicts] in *.
  unfold get, try_except_KeyError. py_run ltac:(rewrite ?Hv, ?Ha, ?Hd).
  by destruct (d !! name).
Qed.

(** X1: [get] gives what the attributes bind to the name, and the default when
    they bind nothing: it raises no [KeyError], and leaves the store as it
    is. *)
Theorem get_bound_or_default st self v a d name dflt :
  volumes st !! self = Some v →
  Volume.attrib v = Some a →
  dicts st !! a = Some d →
  ∃ x, get self name dflt st = (Ok x, st) ∧
       (d !! name = Some x ∨ (d !! name = None ∧ x = dflt)).
Proof.
  intros Hv Ha Hd. rewrite (get_run st self v a d name dflt Hv Ha Hd).
  destruct (d !! name) as [x|]; eauto.
Qed.

Lemma get_title_run format_markup_element st self v a d form :
  volumes st !! self = Some v →
  Volume.attrib v = Some a →
  dicts st !! a = Some d →
  get_title format_markup_element self form st
  = (Ok (format_markup_element (default VNone (d !! "xml_title")) form), st).
Proof.
  intros Hv Ha Hd. unfold get_title.
  by rewrite (bind_Ok _ _ _ _ _ (get_run st self v a d "xml_title" VNone Hv Ha Hd)).
Qed.

(** ** Construction, in full *)

Section construction_in_full.
Context `{Collaborators} `{Unicode}.

Lemma Volume_new_outcome st front_matter venue_index sig_index p d :
  papers st !! front_matter = Some p →
  dicts st !! Paper.attrib p = Some d →
  let self := fresh (dom (volumes st)) in
  let a := fresh (dom (dicts st)) in
  let c := fresh (dom (lists st)) in
  let top := Paper.top_level_id p in
  let fmid := Paper.paper_id p in
  let V1 := <[self := Volume.mk (Some fmid) (Some top) (Some a) None]> (volumes st) in
  let V2 := <[self := Volume.mk (Some fmid) (Some top) (Some a) (Some c)]> (volumes st) in
  Volume_new front_matter venue_index sig_index st
  = match identifier top fmid with
    | Ok i =>
        let d3 := described st venue_index sig_index p d i in
        match d !! "title" with
        | None => (Raise (KeyError "title"),
                   mkStore (papers st) (<[a := d3]> (dicts st)) (lists st) V1)
        | Some (VStr t) =>
            let d4 := with_meta top t d3 in
            if starts_with_J_or_Q top
            then (Ok self, mkStore (papers st) (<[a := d4]> (dicts st))
                             (<[c := []]> (lists st)) V2)
            else match Paper.parent_volume_id p with
                 | Some _ =>
                     (Raise (NameError "log"),
                      mkStore (papers st) (<[a := d4]> (dicts st))
                        (<[c := [front_matter]]> (lists st)) V2)
                 | None =>
                     (Ok self,
                      mkStore (<[front_matter :=
                                   Paper.set_parent_volume_id p (Some i)]> (papers st))
                        (<[a := d4]> (dicts st))
                        (<[c := [front_matter]]> (lists st)) V2)
                 end
        | Some x =>
            (Raise TypeError,
             mkStore (papers st)
               (<[a := <["meta_journal_title" := get_journal_title top x]> d3]> (dicts st))
               (lists st) V1)
        end
    | Raise e => (Raise e, mkStore (papers st) (<[a := inherited d]> (dicts st))
                             (lists st) V1)
    | Wrong => (Wrong, mkStore (papers st) (<[a := inherited d]> (dicts st))
                         (lists st) V1)
    end.
Proof.
  destruct st as [P D L V]. cbn [papers dicts lists volumes]. intros Hp Hd.
  rewrite (Volume_new_run _ _ _ _ _ _ _ p d Hp Hd).
  unfold construction, described, store_at_register.
  cbn [papers dicts lists volumes Volume.content Volume.blank].
  rewrite !insert_insert_eq.
  destruct (identifier _ _) as [i|e|]; [|done..].
  rewrite !lookup_insert_ne by done.
  rewrite (inherited_other d "title") by set_solver.
  destruct (d !! "title") as [[|t|]|]; try done.
  destruct (starts_with_J_or_Q _); [done|].
  by destruct (Paper.parent_volume_id p).
Qed.
End construction_in_full.

Section construction_extras.
Context `{Collaborators} `{Unicode}.

(** A construction that returns, with the front matter and its attributes
    named: the identifier, the title, and the store it ends in. *)
Lemma Volume_new_Ok_store st st' front_matter venue_index sig_index self p d :
  papers st !! front_matter = Some p →
  dicts st !! Paper.attrib p = Some d →
  Volume_new front_matter venue_index sig_index st = (Ok self, st') →
  ∃ i t,
    let a := fresh (dom (dicts st)) in
    let c := fresh (dom (lists st)) in
    let top := Paper.top_level_id p in
    let fmid := Paper.paper_id p in
    identifier top fmid = Ok i ∧
    d !! "title" = Some (VStr t) ∧
    self = fresh (dom (volumes st)) ∧
    (starts_with_J_or_Q top = false → Paper.parent_volume_id p = None) ∧
    st' = mkStore
            (if starts_with_J_or_Q top then papers st
             else <[front_matter := Paper.set_parent_volume_id p (Some i)]> (papers st))
            (<[a := with_meta top t (described st venue_index sig_index p d i)]> (dicts st))
            (<[c := if starts_with_J_or_Q top then [] else [front_matter]]> (lists st))
            (<[self := Volume.mk (Some fmid) (Some top) (Some a) (Some c)]> (volumes st)).
Proof.
  intros Hp Hd. rewrite (Volume_new_outcome st _ venue_index sig_index p d Hp Hd).
  cbn zeta. destruct (identifier _ _) as [i|e|]; [|done..].
  destruct (d !! "title") as [[|t|]|]; try done.
  destruct (starts_with_J_or_Q _).
  - intros [= <- <-]. by exists i, t.
  - destruct (Paper.parent_volume_id p); [done|].
    intros [= <- <-]. by exists i, t.
Qed.

(** X3: the url of a constructed volume is the template of [data] filled with
    its [full_id], whatever url the front matter had. *)
Theorem url_of_constructed_volume
    st st' front_matter venue_index sig_index self dflt :
  Volume_new front_matter venue_index sig_index st = (Ok self, st') →
  ∃ i, full_id self st' = (Ok i, st') ∧
       get self "url" dflt st' = (Ok (VStr (ANTHOLOGY_URL_format i)), st').
Proof.
  intros Hrun.
  destruct (Volume_new_Ok_inv _ _ _ _ _ _ Hrun)
    as (p & d & i & t & d3 & Hp & Hd & Hi & _ & _ & Hurl & _ & HV & HD & _).
  cbn zeta in *. exists i.
  assert (Hv : volumes st' !! self = Some
    (Volume.mk (Some (Paper.paper_id p)) (Some (Paper.top_level_id p))
       (Some (fresh (dom (dicts st)))) (Some (fresh (dom (lists st)))))).
  { rewrite HV. apply lookup_insert_eq. }
  split.
  - erewrite full_id_run by (first [exact Hv | done]). by rewrite Hi.
  - erewrite get_run; [| exact Hv | done | rewrite HD; apply lookup_insert_eq].
    rewrite with_meta_other by set_solver. by rewrite Hurl.
Qed.

(** X4: the venues of a constructed volume are what [register] answered
    when it was handed the volume as line 32 finds it: the two identifiers
    assigned from the front matter, [attrib] the copy with editor for
    author, the three fields left out and url set from its [full_id], no
    venues, sigs or derived attributes yet, [content] not assigned, and
    the rest of the store as before construction.  Its sigs are what
    [get_associated_sigs] answered for the [full_id] of the front matter,
    as the front matter was before construction. *)
Theorem venues_and_sigs_of_constructed_volume
    st st' front_matter venue_index sig_index self p d dflt :
  papers st !! front_matter = Some p →
  dicts st !! Paper.attrib p = Some d →
  Volume_new front_matter venue_index sig_index st = (Ok self, st') →
  ∃ i a,
    let sr := store_at_register st p d i in
    get self "venues" dflt st' = (Ok (register venue_index sr self), st') ∧
    get self "sigs" dflt st'
    = (Ok (get_associated_sigs sig_index (Paper_full_id p)), st') ∧
    volumes st !! self = None ∧
    dicts st !! a = None ∧
    volumes sr !! self
    = Some (Volume.mk (Some (Paper.paper_id p)) (Some (Paper.top_level_id p))
              (Some a) None) ∧
    dicts sr !! a
    = Some (<["url" := VStr (ANTHOLOGY_URL_format i)]> (inherited d)) ∧
    full_id self sr = (Ok i, sr) ∧
    full_id self st' = (Ok i, st') ∧
    papers sr = papers st ∧
    lists sr = lists st ∧
    (∀ o, o ≠ self → volumes sr !! o = volumes st !! o) ∧
    (∀ b, b ≠ a → dicts sr !! b = dicts st !! b).
Proof.
  intros Hp Hd Hrun.
  destruct (Volume_new_Ok_store _ _ _ _ _ _ _ _ Hp Hd Hrun)
    as (i & t & Hi & Ht & -> & _ & ->). cbn zeta.
  set (self := fresh (dom (volumes st))).
  set (v := Volume.mk _ _ _ (Some _)).
  exists i, (fresh (dom (dicts st))). cbn zeta.
  split.
  { erewrite (get_run _ self v) by (first [apply lookup_insert_eq | done]).
    rewrite with_meta_other by set_solver. unfold described.
    rewrite lookup_insert_ne by done. by rewrite lookup_insert_eq. }
  split.
  { erewrite (get_run _ self v) by (first [apply lookup_insert_eq | done]).
    rewrite with_meta_other by set_solver. unfold described.
    by rewrite lookup_insert_eq. }
  split; [apply not_elem_of_dom, is_fresh|].
  split; [apply not_elem_of_dom, is_fresh|].
  unfold store_at_register. cbn [papers volumes dicts lists].
  split; [apply lookup_insert_eq|]. split; [apply lookup_insert_eq|].
  split.
  { erewrite full_id_run by (first [apply lookup_insert_eq | done]).
    by rewrite Hi. }
  split.
  { erewrite (full_id_run _ self v) by
      (first [apply lookup_insert_eq | done]). by rewrite Hi. }
  split; [done|]. split; [done|].
  split; intros ? ?; by rewrite lookup_insert_ne.
Qed.

Lemma inherited_editor_kept d :
  d !! "author" = None → inherited d !! "editor" = d !! "editor".
Proof.
  intros Hx. unfold inherited. rewrite Hx. by rewrite !lookup_delete_ne by done.
Qed.

(** X5: every other attribute of the front matter is carried over as it is:
    the title and whatever key is not author, editor, one of the three
    fields left out, or one of the six that construction sets; and the
    editor too, when the front matter has no author. *)
Theorem other_attributes_carried_over
    st st' front_matter venue_index sig_index self d :
  paper_attrib_of st front_matter = Some d →
  Volume_new front_matter venue_index sig_index st = (Ok self, st') →
  ∃ d', attrib_of st' self = Some d' ∧
        d' !! "title" = d !! "title" ∧
        (∀ k, k ∉ ["author"; "editor"; "revision"; "erratum"; "pages";
                   "url"; "venues"; "sigs";
                   "meta_journal_title"; "meta_volume"; "meta_issue"] →
              d' !! k = d !! k) ∧
        (d !! "author" = None → d' !! "editor" = d !! "editor").
Proof.
  intros Hd Hrun.
  destruct (attrib_after_construction _ _ _ _ _ _ Hrun)
    as (d0 & d' & Hd0 & Hd' & Hsame).
  assert (d0 = d) as -> by congruence.
  exists d'. split_and!; [done|..].
  - rewrite Hsame by set_solver. apply inherited_other. set_solver.
  - intros k Hk. rewrite Hsame by set_solver. apply inherited_other. set_solver.
  - intros Hx. rewrite Hsame by set_solver. by apply inherited_editor_kept.
Qed.

(** X2: the title of a constructed volume, as [get_title] gives it, is the
    formatter applied to the xml_title of the front matter, and to [None]
    when the front matter has none, whatever its title is; the store is
    left as it is. *)
Theorem get_title_of_constructed_volume format_markup_element
    st st' front_matter venue_index sig_index self d form :
  paper_attrib_of st front_matter = Some d →
  Volume_new front_matter venue_index sig_index st = (Ok self, st') →
  get_title format_markup_element self form st'
  = (Ok (format_markup_element (default VNone (d !! "xml_title")) form), st').
Proof.
  intros Hd Hrun.
  destruct (attrib_after_construction _ _ _ _ _ _ Hrun)
    as (d0 & d' & Hd0 & Hd' & Hsame).
  assert (d0 = d) as -> by congruence.
  unfold attrib_of in Hd'.
  destruct (volumes st' !! self) as [v|] eqn:Hv; [cbn in Hd' | done].
  destruct (Volume.attrib v) as [a|] eqn:Ha; [cbn in Hd' | done].
  rewrite (get_title_run _ st' self v a d' form Hv Ha Hd').
  rewrite Hsame by set_solver. by rewrite inherited_other by set_solver.
Qed.
End construction_extras.

(** ** When construction returns, and what it leaves alone *)

Lemma identifier_is_Ok top fmid :
  (∃ i, identifier top fmid = Ok i) ↔
  top ≠ "" ∧ (starts_with_W top = true ∨ fmid ≠ "").
Proof.
  unfold identifier, starts_with_W. destruct top as [|c top'].
  - split; [by intros [? ?] | by intros [? _]].
  - case_bool_decide.
    + split; [by eauto | by eauto].
    + destruct fmid as [|c0 fmid'].
      * split; [by intros [? ?] | by intros [_ [?|?]]].
      * split; [by eauto | by eauto].
Qed.

Section construction_outcomes.
Context `{Collaborators} `{Unicode}.

(** X6: construction returns a volume exactly when the identifiers of the
    front matter give a [full_id], its attributes bind title to a string,
    and it has no parent yet or its collection starts with J or Q. *)
Theorem construction_returns_iff st front_matter venue_index sig_index p d :
  papers st !! front_matter = Some p →
  dicts st !! Paper.attrib p = Some d →
  (∃ self st', Volume_new front_matter venue_index sig_index st = (Ok self, st')) ↔
  Paper.top_level_id p ≠ "" ∧
  (starts_with_W (Paper.top_level_id p) = true ∨ Paper.paper_id p ≠ "") ∧
  (∃ t, d !! "title" = Some (VStr t)) ∧
  (starts_with_J_or_Q (Paper.top_level_id p) = true ∨ Paper.parent_volume_id p = None).
Proof.
  intros Hp Hd. rewrite (Volume_new_outcome st _ venue_index sig_index p d Hp Hd).
  cbn zeta. rewrite (assoc _ (_ ≠ _)), <- identifier_is_Ok.
  destruct (identifier _ _) as [i|e|].
  2, 3: split; [by intros (? & ? & ?) | by intros [[? ?] _]].
  destruct (d !! "title") as [[|t|]|].
  1, 3, 4: split; [by intros (? & ? & ?) | by intros (_ & [? ?] & _)].
  destruct (starts_with_J_or_Q _).
  - split; [by eauto 6 | by eauto].
  - destruct (Paper.parent_volume_id p).
    + split; [by intros (? & ? & ?) | by intros (_ & _ & [?|?])].
    + split; [by eauto 6 | by eauto].
Qed.

(** X7: whatever its outcome, construction changes no volume and no list that
    existed before and no paper other than the front matter; of the front
    matter it changes the parent only, and only when it returns a volume
    whose collection does not start with J or Q. *)
Theorem construction_touches_only_front_matter
    st front_matter venue_index sig_index p d o st' :
  papers st !! front_matter = Some p →
  dicts st !! Paper.attrib p = Some d →
  Volume_new front_matter venue_index sig_index st = (o, st') →
  (∀ l, l ∈ dom (volumes st) → volumes st' !! l = volumes st !! l) ∧
  (∀ l, l ∈ dom (lists st) → lists st' !! l = lists st !! l) ∧
  (∀ l, l ≠ front_matter → papers st' !! l = papers st !! l) ∧
  (∃ x, papers st' !! front_matter = Some (Paper.set_parent_volume_id p x)) ∧
  ((∀ self, o ≠ Ok self) ∨ starts_with_J_or_Q (Paper.top_level_id p) = true →
   papers st' = papers st).
Proof.
  intros Hp Hd. rewrite (Volume_new_outcome st _ venue_index sig_index p d Hp Hd).
  cbn zeta.
  assert (HfV : fresh (dom (volumes st)) ∉ dom (volumes st)) by apply is_fresh.
  assert (HfL : fresh (dom (lists st)) ∉ dom (lists st)) by apply is_fresh.
  assert (Hsame : papers st !! front_matter
                  = Some (Paper.set_parent_volume_id p (Paper.parent_volume_id p)))
    by (by destruct p).
  assert (HV : ∀ (v : Volume.t) l, l ∈ dom (volumes st) →
                 <[fresh (dom (volumes st)) := v]> (volumes st) !! l = volumes st !! l).
  { intros v l Hl. apply lookup_insert_ne. by intros <-. }
  assert (HL : ∀ (ps : list nat) l, l ∈ dom (lists st) →
                 <[fresh (dom (lists st)) := ps]> (lists st) !! l = lists st !! l).
  { intros ps l Hl. apply lookup_insert_ne. by intros <-. }
  repeat case_match; intros [= <- <-]; cbn [papers lists volumes];
    (split_and!;
     [ by auto | by auto
     | by (intros; rewrite ?lookup_insert_ne by done)
     | by (rewrite ?lookup_insert_eq; eauto)
     | try done ]).
  all: intros [Hno | ?]; [|done]; by destruct (Hno (fresh (dom (volumes st)))).
Qed.

(** X8: a front matter seeds one volume: after a construction that returned a
    volume whose collection does not start with J or Q, constructing from
    the same front matter again raises [NameError], and the front matter
    keeps the first volume as parent. *)
Theorem front_matter_seeds_one_volume
    st st' front_matter venue_index sig_index self venue_index' sig_index' p :
  papers st !! front_matter = Some p →
  starts_with_J_or_Q (Paper.top_level_id p) = false →
  Volume_new front_matter venue_index sig_index st = (Ok self, st') →
  ∃ st'', Volume_new front_matter venue_index' sig_index' st'
          = (Raise (NameError "log"), st'') ∧
          parent_of st'' front_matter = parent_of st' front_matter ∧
          ∃ i, full_id self st'' = (Ok i, st'') ∧
               parent_of st'' front_matter = Some (Some i).
Proof.
  intros Hp HJQ Hrun.
  destruct (Volume_new_Ok_inv _ _ _ _ _ _ Hrun) as (p0 & d & _ & _ & _ & Hp0 & Hd & _).
  assert (p0 = p) as -> by congruence.
  destruct (Volume_new_Ok_store _ _ _ _ _ _ _ _ Hp Hd Hrun)
    as (i & t & Hi & Ht & -> & _ & ->). cbn zeta.
  rewrite HJQ.
  set (st1 := mkStore _ _ _ _).
  assert (Hfresh : fresh (dom (dicts st)) ∉ dom (dicts st)) by apply is_fresh.
  assert (Hp1 : papers st1 !! front_matter = Some (Paper.set_parent_volume_id p (Some i)))
    by apply lookup_insert_eq.
  assert (Hd1 : dicts st1 !! Paper.attrib (Paper.set_parent_volume_id p (Some i)) = Some d).
  { cbn. rewrite lookup_insert_ne; [done|].
    intros E. apply Hfresh. rewrite E. apply elem_of_dom. eauto. }
  rewrite (Volume_new_outcome st1 _ venue_index' sig_index' _ d Hp1 Hd1).
  cbn zeta. cbn [Paper.set_parent_volume_id Paper.top_level_id Paper.paper_id
                 Paper.parent_volume_id].
  rewrite Hi, Ht, HJQ. eexists. split; [reflexivity|].
  unfold parent_of. cbn [papers]. split; [done|].
  exists i. rewrite Hp1. split; [|done].
  match goal with
  | |- full_id _ ?s2 = _ =>
      assert (Hv : volumes s2 !! fresh (dom (volumes st)) = Some
        (Volume.mk (Some (Paper.paper_id p)) (Some (Paper.top_level_id p))
           (Some (fresh (dom (dicts st)))) (Some (fresh (dom (lists st))))))
  end.
  { cbn [volumes st1].
    set (V1 := <[fresh (dom (volumes st)) := _]> (volumes st)).
    rewrite lookup_insert_ne; [apply lookup_insert_eq|].
    intros E. apply (is_fresh (dom V1)). rewrite E. apply elem_of_dom.
    subst V1. rewrite lookup_insert_eq. eauto. }
  rewrite (full_id_run _ _ _ _ _ Hv eq_refl eq_refl). by rewrite Hi.
Qed.
End construction_outcomes.

(** ** More on [append] *)

Lemma only_touches_refl paper st : only_touches paper st st.
Proof.
  split_and!; try done. intros c ps Hps. exists []. by rewrite app_nil_r.
Qed.

Lemma only_touches_trans paper st1 st2 st3 :
  only_touches paper st1 st2 → only_touches paper st2 st3 →
  only_touches paper st1 st3.
Proof.
  intros (HD1 & HV1 & HP1 & HL1) (HD2 & HV2 & HP2 & HL2). split_and!.
  - congruence.
  - congruence.
  - intros l Hl. rewrite HP2, HP1; done.
  - intros c ps Hps. destruct (HL1 _ _ Hps) as (ps1 & Hps1).
    destruct (HL2 _ _ Hps1) as (ps2 & Hps2). exists (ps1 ++ ps2)%list.
    by rewrite app_assoc.
Qed.

Lemma within_bind {A B} paper (m : M A) (k : A → M B) :
  within paper m → (∀ a, within paper (k a)) → within paper (bind m k).
Proof.
  intros Hm Hk st o st'. unfold bind.
  destruct (m st) as [[a|e|] st1] eqn:E; intros Hrun.
  - eapply only_touches_trans; [by eapply Hm | by eapply Hk].
  - injection Hrun as <- <-. by eapply Hm.
  - injection Hrun as <- <-. by eapply Hm.
Qed.

Lemma within_pure {A} paper (m : M A) :
  (∀ st, snd (m st) = st) → within paper m.
Proof.
  intros Hm st o st' E. specialize (Hm st). rewrite E in Hm. cbn in Hm. subst.
  apply only_touches_refl.
Qed.

Lemma getattr_pure {A} name (field : Volume.t → option A) self st :
  snd (getattr name field self st) = st.
Proof.
  unfold getattr, bind, read_volume, of_option.
  destruct (volumes st !! self) as [v|]; [|done]. cbn. by destruct (field v).
Qed.

Lemma read_paper_pure l st : snd (read_paper l st) = st.
Proof. unfold read_paper, of_option. by destruct (papers st !! l). Qed.

Lemma full_id_pure self st : snd (full_id self st) = st.
Proof.
  destruct st as [P D L V]. unfold full_id.
  destruct (V !! self) as [v|] eqn:Hv; [|by py_run ltac:(rewrite ?Hv)].
  destruct (Volume.top_level_id v) as [top|] eqn:Ht;
    [|by py_run ltac:(rewrite ?Hv, ?Ht)].
  destruct (Volume.front_matter_id v) as [fm|] eqn:Hf.
  - fold (full_id self).
    by rewrite (full_id_run (mkStore P D L V) self v top fm Hv Ht Hf).
  - py_run ltac:(rewrite ?Hv, ?Ht, ?Hf). destruct top as [|c top']; [done|].
    by case_bool_decide; py_run ltac:(rewrite ?Hv, ?Ht, ?Hf).
Qed.

Section append_extras.
Context `{Collaborators} `{Unicode}.

Lemma paper_full_id_pure l st : snd (paper_full_id l st) = st.
Proof.
  unfold paper_full_id, bind.
  pose proof (read_paper_pure l st) as Hr.
  destruct (read_paper l st) as [[p|e|] st1]; cbn in *; by subst.
Qed.

Lemma append_within self paper : within paper (append self paper).
Proof.
  unfold append.
  apply within_bind; [apply within_pure, getattr_pure|]. intros c.
  apply within_bind.
  { intros st o st'. unfold list_append, bind, read_list, write_list, of_option.
    destruct (lists st !! c) as [ps|] eqn:Hc; intros [= <- <-];
      [|apply only_touches_refl].
    split_and!; try done. intros c' ps' Hps'. cbn.
    destruct (decide (c = c')) as [<- | Hne].
    - rewrite lookup_insert_eq. exists [paper]. congruence.
    - rewrite lookup_insert_ne by done. exists []. by rewrite app_nil_r. }
  intros _. apply within_bind; [apply within_pure, read_paper_pure|]. intros p.
  apply within_bind.
  { destruct (Paper.parent_volume_id p); [|by apply within_pure].
    apply within_bind.
    { apply within_pure. intros st. unfold load_global. by case_bool_decide. }
    intros _. apply within_bind; [apply within_pure, paper_full_id_pure|].
    intros _. apply within_bind; [apply within_pure, full_id_pure|].
    intros _. by apply within_pure. }
  intros _. apply within_bind; [apply within_pure, full_id_pure|]. intros i.
  apply within_bind; [apply within_pure, read_paper_pure|]. intros p'.
  intros st o st' [= <- <-]. split_and!; try done.
  - intros l Hl. cbn. by rewrite lookup_insert_ne.
  - intros c' ps' Hps'. exists []. by rewrite app_nil_r.
Qed.
End append_extras.

(** [full_id] reads the volume objects and nothing else. *)
Lemma full_id_reads_volumes st self :
  ∃ r, ∀ st', volumes st' = volumes st → full_id self st' = (r, st').
Proof.
  destruct (volumes st !! self) as [v|] eqn:Hv.
  2: { exists Wrong. intros [P D L V] E. cbn in E. subst V. unfold full_id.
       by py_run ltac:(rewrite ?Hv). }
  destruct (Volume.top_level_id v) as [top|] eqn:Ht.
  2: { exists (Raise (AttributeError "top_level_id")). intros [P D L V] E.
       cbn in E. subst V. unfold full_id. by py_run ltac:(rewrite ?Hv, ?Ht). }
  destruct (Volume.front_matter_id v) as [fm|] eqn:Hf.
  - exists (identifier top fm). intros st' E. apply (full_id_run st' self v top fm);
      [by rewrite E | done | done].
  - exists (match top with
            | EmptyString => Raise IndexError
            | _ => Raise (AttributeError "front_matter_id")
            end).
    intros [P D L V] E. cbn in E. subst V. unfold full_id.
    py_run ltac:(rewrite ?Hv, ?Ht, ?Hf). destruct top as [|c top']; [done|].
    by case_bool_decide; py_run ltac:(rewrite ?Hv, ?Ht, ?Hf).
Qed.

Section append_more.
Context `{Collaborators} `{Unicode}.

(** An [append] that returns: the paper had no parent, the volume has an
    identifier, and the store is the one [append_run_free] gives. *)
Lemma append_Ok_inv st st' self paper :
  append self paper st = (Ok tt, st') →
  ∃ v c ps p top fmid i,
    volumes st !! self = Some v ∧
    Volume.content v = Some c ∧
    Volume.top_level_id v = Some top ∧
    Volume.front_matter_id v = Some fmid ∧
    lists st !! c = Some ps ∧
    papers st !! paper = Some p ∧
    Paper.parent_volume_id p = None ∧
    identifier top fmid = Ok i ∧
    st' = mkStore (<[paper := Paper.set_parent_volume_id p (Some i)]> (papers st))
            (dicts st) (<[c := (ps ++ [paper])%list]> (lists st)) (volumes st).
Proof.
  destruct st as [P D L V]. cbn [papers dicts lists volumes].
  destruct (V !! self) as [v|] eqn:Hv.
  2: { unfold append. by py_run ltac:(rewrite ?Hv). }
  destruct (Volume.content v) as [c|] eqn:Hc.
  2: { unfold append. by py_run ltac:(rewrite ?Hv, ?Hc). }
  destruct (L !! c) as [ps|] eqn:Hps.
  2: { unfold append. by py_run ltac:(rewrite ?Hv, ?Hc, ?Hps). }
  destruct (P !! paper) as [p|] eqn:Hp.
  2: { unfold append. by py_run ltac:(rewrite ?Hv, ?Hc, ?Hps, ?Hp). }
  destruct (Paper.parent_volume_id p) as [x|] eqn:Hx.
  { erewrite append_run_owned by eauto. done. }
  destruct (full_id_reads_volumes (mkStore P D L V) self) as [r Hr].
  assert (Hrun : append self paper (mkStore P D L V)
    = match r with
      | Ok i => (Ok tt, mkStore (<[paper := Paper.set_parent_volume_id p (Some i)]> P)
                          D (<[c := (ps ++ [paper])%list]> L) V)
      | Raise e => (Raise e, mkStore P D (<[c := (ps ++ [paper])%list]> L) V)
      | Wrong => (Wrong, mkStore P D (<[c := (ps ++ [paper])%list]> L) V)
      end).
  { unfold append. py_run ltac:(rewrite ?Hv, ?Hc, ?Hps, ?Hp, ?Hx).
    rewrite Hr by reflexivity.
    destruct r; [|done..]. by py_run ltac:(rewrite ?Hp). }
  rewrite Hrun. destruct r as [i|e|] eqn:Er; try done. intros [= <-].
  destruct (Volume.top_level_id v) as [top|] eqn:Ht.
  2: { pose proof (Hr (mkStore P D L V) eq_refl) as Hf. unfold full_id in Hf.
       revert Hf. by py_run ltac:(rewrite ?Hv, ?Ht). }
  destruct (Volume.front_matter_id v) as [fmid|] eqn:Hf.
  2: { pose proof (Hr (mkStore P D L V) eq_refl) as Hfull. unfold full_id in Hfull.
       revert Hfull. py_run ltac:(rewrite ?Hv, ?Ht, ?Hf).
       destruct top as [|c0 top']; [done|].
       by case_bool_decide; py_run ltac:(rewrite ?Hv, ?Ht, ?Hf). }
  pose proof (Hr (mkStore P D L V) eq_refl) as Hfull.
  rewrite (full_id_run (mkStore P D L V) self v top fmid Hv Ht Hf) in Hfull.
  injection Hfull as Hi.
  by exists v, c, ps, p, top, fmid, i.
Qed.
End append_more.

Lemma content_of_inv st self ps :
  content_of st self = Some ps →
  ∃ v c, volumes st !! self = Some v ∧ Volume.content v = Some c ∧
         lists st !! c = Some ps.
Proof.
  unfold content_of. destruct (volumes st !! self) as [v|]; [cbn | done].
  destruct (Volume.content v) as [c|] eqn:Hc; [cbn | done]. eauto.
Qed.

Section paper_ids_extras.
Context `{Collaborators} `{Unicode}.

Lemma full_ids_run st ps ids :
  ids_of st ps ids → full_ids ps st = (Ok ids, st).
Proof.
  induction 1 as [|l i ps ids (p & Hp & ->) _ IH]; [done|].
  destruct st as [P D L V]. cbn [papers] in Hp. cbn [full_ids].
  unfold paper_full_id. py_run ltac:(rewrite ?Hp). by rewrite IH.
Qed.

Lemma full_ids_Ok_inv st ps ids st' :
  full_ids ps st = (Ok ids, st') → ids_of st ps ids ∧ st' = st.
Proof.
  revert ids st'. induction ps as [|l ps IH]; intros ids st'; cbn [full_ids].
  - intros [= <- <-]. split; [constructor | done].
  - destruct st as [P D L V]. unfold paper_full_id.
    destruct (P !! l) as [p|] eqn:Hp; [|by py_run ltac:(rewrite ?Hp)].
    py_run ltac:(rewrite ?Hp).
    destruct (full_ids ps _) as [[ids'|e|] st1] eqn:E; try done.
    intros [= <- <-]. destruct (IH _ _ eq_refl) as [Hids ->]. split; [|done].
    constructor; [by exists p | done].
Qed.

Lemma ids_of_agree st st' ps ids :
  (∀ l, l ∈ ps → papers st' !! l = papers st !! l) →
  ids_of st ps ids → ids_of st' ps ids.
Proof.
  intros Hsame Hids. induction Hids as [|l i ps ids (p & Hp & ->) _ IH];
    [constructor|].
  constructor.
  - exists p. split; [|done]. rewrite Hsame; [done | left].
  - apply IH. intros l' Hl'. apply Hsame. by right.
Qed.

Lemma paper_ids_content st self ps :
  content_of st self = Some ps → paper_ids self st = full_ids ps st.
Proof.
  intros Hc. destruct (content_of_inv _ _ _ Hc) as (v & c & Hv & Hcv & Hps).
  destruct st as [P D L V]. cbn [volumes lists] in *. unfold paper_ids.
  by py_run ltac:(rewrite ?Hv, ?Hcv, ?Hps).
Qed.

(** X9: [paper_ids] gives one identifier for each paper of [content], in the
    order of [content], a paper that is there twice being listed twice;
    it leaves the store as it is. *)
Theorem paper_ids_in_order st self ps :
  content_of st self = Some ps →
  (∀ l, l ∈ ps → is_Some (papers st !! l)) →
  ∃ ids, paper_ids self st = (Ok ids, st) ∧
         length ids = length ps ∧
         ∀ k l, ps !! k = Some l →
                ∃ p, papers st !! l = Some p ∧ ids !! k = Some (Paper_full_id p).
Proof.
  intros Hc Hall. rewrite (paper_ids_content _ _ _ Hc).
  assert (Hex : ∃ ids, ids_of st ps ids).
  { clear Hc. induction ps as [|l ps IH]; [exists []; constructor|].
    destruct (Hall l) as [p Hp]; [left|].
    destruct IH as [ids Hids]; [intros; apply Hall; by right|].
    exists (Paper_full_id p :: ids). constructor; [by exists p | done]. }
  destruct Hex as [ids Hids]. exists ids.
  split; [by apply full_ids_run|]. split; [symmetry; by eapply Forall2_length|].
  intros k l Hk.
  destruct (Forall2_lookup_l _ _ _ _ _ Hids Hk) as (i & Hi & p & Hp & ->). eauto.
Qed.

(** X10: after an [append] that returns, of a paper that was not in [content],
    [paper_ids] is what it was, followed by the identifier of the paper. *)
Theorem paper_ids_after_append st st' self paper ps ids :
  content_of st self = Some ps →
  paper ∉ ps →
  paper_ids self st = (Ok ids, st) →
  append self paper st = (Ok tt, st') →
  ∃ p', papers st' !! paper = Some p' ∧
        paper_ids self st' = (Ok (ids ++ [Paper_full_id p'])%list, st').
Proof.
  intros Hc Hnotin Hids Hrun.
  rewrite (paper_ids_content _ _ _ Hc) in Hids.
  apply full_ids_Ok_inv in Hids as [Hids _].
  destruct (append_Ok_inv _ _ _ _ Hrun)
    as (v & c & ps0 & p & top & fmid & i & Hv & Hcv & _ & _ & Hps & Hp & _ & _ & ->).
  assert (ps0 = ps) as ->.
  { unfold content_of in Hc. rewrite Hv in Hc. cbn in Hc. rewrite Hcv in Hc.
    cbn in Hc. congruence. }
  exists (Paper.set_parent_volume_id p (Some i)). cbn [papers].
  split; [apply lookup_insert_eq|].
  erewrite paper_ids_content.
  2: { unfold content_of. cbn [volumes lists]. rewrite Hv. cbn. rewrite Hcv. cbn.
       apply lookup_insert_eq. }
  apply full_ids_run. apply Forall2_app.
  - eapply ids_of_agree; [|exact Hids]. intros l Hl. cbn [papers].
    apply lookup_insert_ne. by intros <-.
  - constructor; [|constructor]. eexists. split; [apply lookup_insert_eq | done].
Qed.
End paper_ids_extras.

Section append_theorems.
Context `{Collaborators} `{Unicode}.

(** X11: whatever its outcome, [append] changes no dictionary and no volume
    object, no paper other than the one it is given, and takes nothing
    out of a list: the [full_id] of every volume is afterwards what it
    was. *)
Theorem append_changes_no_volume st self paper o st' :
  append self paper st = (o, st') →
  only_touches paper st st' ∧
  ∀ w, fst (full_id w st') = fst (full_id w st).
Proof.
  intros Hrun. pose proof (append_within self paper st o st' Hrun) as Htouch.
  split; [done|]. intros w. destruct Htouch as (_ & HV & _).
  destruct (full_id_reads_volumes st w) as [r Hr].
  by rewrite (Hr st' HV), (Hr st eq_refl).
Qed.

(** X12: a paper is appended once: after an [append] of it that returned,
    appending it again, to this volume or to another, raises [NameError];
    the paper is then in the content of that volume too, and its parent is
    still the first volume. *)
Theorem paper_appended_once st st' self paper w v c ps :
  append self paper st = (Ok tt, st') →
  volumes st' !! w = Some v →
  Volume.content v = Some c →
  lists st' !! c = Some ps →
  ∃ st'' i,
    append w paper st' = (Raise (NameError "log"), st'') ∧
    content_of st'' w = Some (ps ++ [paper])%list ∧
    full_id self st'' = (Ok i, st'') ∧
    parent_of st'' paper = Some (Some i).
Proof.
  intros Hrun Hw Hc Hps.
  destruct (append_Ok_inv _ _ _ _ Hrun)
    as (v0 & c0 & ps0 & p & top & fmid & i & Hv0 & Hc0 & Ht & Hf & Hps0 & Hp & _ & Hi & ->).
  cbn [volumes lists] in Hw, Hps.
  eexists _, i. split.
  { eapply append_run_owned; [exact Hw | exact Hc | exact Hps
                              | apply lookup_insert_eq | by eexists]. }
  unfold content_of, parent_of. cbn [volumes lists papers].
  rewrite Hw. cbn. rewrite Hc. cbn. rewrite !lookup_insert_eq.
  split_and!; [done | | done].
  erewrite (full_id_run _ self v0 top fmid); [by rewrite Hi | done..].
Qed.

(** X13: ownership is kept: when every paper of the content of a volume has
    the volume as parent and is there once, that is so again after an
    [append] that returns, with the paper added at the end. *)
Theorem append_keeps_ownership st st' self paper i :
  owns st self i →
  append self paper st = (Ok tt, st') →
  owns st' self i ∧
  ∃ ps, content_of st self = Some ps ∧
        content_of st' self = Some (ps ++ [paper])%list.
Proof.
  intros (Hfull & ps & Hcontent & Hnodup & Hparents) Hrun.
  destruct (append_Ok_inv _ _ _ _ Hrun)
    as (v & c & ps0 & p & top & fmid & i0 & Hv & Hc & Ht & Hf & Hps & Hp & Hnone & Hi & ->).
  assert (ps0 = ps) as ->.
  { unfold content_of in Hcontent. rewrite Hv in Hcontent. cbn in Hcontent.
    rewrite Hc in Hcontent. cbn in Hcontent. congruence. }
  assert (i0 = i) as ->.
  { rewrite (full_id_run st self v top fmid Hv Ht Hf), Hi in Hfull. congruence. }
  assert (Hnotin : paper ∉ ps).
  { intros Hin. apply Hparents in Hin. unfold parent_of in Hin.
    rewrite Hp in Hin. cbn in Hin. congruence. }
  assert (Hcontent' : content_of
            (mkStore (<[paper := Paper.set_parent_volume_id p (Some i)]> (papers st))
               (dicts st) (<[c := (ps ++ [paper])%list]> (lists st)) (volumes st)) self
          = Some (ps ++ [paper])%list).
  { unfold content_of. cbn [volumes lists]. rewrite Hv. cbn. rewrite Hc. cbn.
    apply lookup_insert_eq. }
  split; [|by eauto]. split.
  { erewrite (full_id_run _ self v top fmid); [by rewrite Hi | done..]. }
  exists (ps ++ [paper])%list. split_and!; [done | |].
  - apply NoDup_app. split_and!; [done | | apply NoDup_singleton].
    intros l Hl Hl'. apply list_elem_of_singleton in Hl'. by subst.
  - intros l Hl. unfold parent_of. cbn [papers].
    apply elem_of_app in Hl as [Hl | Hl].
    + rewrite lookup_insert_ne by (by intros <-). by apply Hparents.
    + apply list_elem_of_singleton in Hl as ->. by rewrite lookup_insert_eq.
Qed.
End append_theorems.

(** ** More on [_set_meta_info] *)

Lemma with_meta_idempotent `{Collaborators} `{Unicode} top t d :
  with_meta top t (with_meta top t d) = with_meta top t d.
Proof.
  unfold with_meta.
  destruct (re_search issue_pattern t true), (re_search volume_pattern t true);
    apply map_eq; intros k; rewrite !lookup_insert;
    repeat case_decide; done.
Qed.

Section meta_extras.
Context `{Collaborators} `{Unicode}.

(** X14: the derivation always stores the journal title that
    [data.get_journal_title] gives for the collection and the title, over
    whatever meta_journal_title was there; it changes no other key than
    the three derived ones, no other dictionary, and no paper, list or
    volume object. *)
Theorem journal_title_always_set st self v top a d t :
  volumes st !! self = Some v →
  Volume.top_level_id v = Some top →
  Volume.attrib v = Some a →
  dicts st !! a = Some d →
  d !! "title" = Some (VStr t) →
  ∃ st' d',
    _set_meta_info self st = (Ok tt, st') ∧
    attrib_of st' self = Some d' ∧
    d' !! "meta_journal_title" = Some (get_journal_title top (VStr t)) ∧
    (∀ k, k ∉ ["meta_journal_title"; "meta_volume"; "meta_issue"] →
          d' !! k = d !! k) ∧
    (∀ l, l ≠ a → dicts st' !! l = dicts st !! l) ∧
    papers st' = papers st ∧ lists st' = lists st ∧ volumes st' = volumes st.
Proof.
  intros Hv Ht Ha Hd Htitle. destruct st as [P D L V]. cbn [volumes dicts] in *.
  exists (mkStore P (<[a := with_meta top t d]> D) L V), (with_meta top t d).
  split; [by eapply set_meta_info_run_str|].
  split.
  { unfold attrib_of. cbn [volumes dicts]. rewrite Hv. cbn. rewrite Ha. cbn.
    apply lookup_insert_eq. }
  split_and!; try done.
  - unfold with_meta.
    destruct (re_search issue_pattern t true), (re_search volume_pattern t true);
      rewrite ?(lookup_insert_ne _ "meta_issue"), ?(lookup_insert_ne _ "meta_volume")
        by done; apply lookup_insert_eq.
  - intros k Hk. by apply with_meta_other.
  - intros l Hl. cbn [dicts]. by apply lookup_insert_ne.
Qed.

(** X15: the derivation can be run again: twice in a row it has the outcome,
    and leaves the store, that it has once. *)
Theorem set_meta_info_twice st self v top a d :
  volumes st !! self = Some v →
  Volume.top_level_id v = Some top →
  Volume.attrib v = Some a →
  dicts st !! a = Some d →
  (_set_meta_info self ;; _set_meta_info self) st = _set_meta_info self st.
Proof.
  intros Hv Ht Ha Hd. destruct st as [P D L V]. cbn [volumes dicts] in *.
  destruct (d !! "title") as [x|] eqn:Htitle.
  2: { by rewrite (bind_of_Raise _ _ _ _ _
            (set_meta_info_run_missing P D L V self a v top d Hv Ht Ha Hd Htitle)),
            (set_meta_info_run_missing P D L V self a v top d Hv Ht Ha Hd Htitle). }
  assert (Hcases : (∃ t, x = VStr t) ∨ ∀ t, x ≠ VStr t).
  { destruct x; [by right | by left; eauto | by right]. }
  destruct Hcases as [[t ->] | Hx].
  - rewrite (bind_Ok _ _ _ _ _
      (set_meta_info_run_str P D L V self a v top d Hv Ht Ha Hd t Htitle)).
    rewrite (set_meta_info_run_str P D L V self a v top d Hv Ht Ha Hd t Htitle).
    erewrite (set_meta_info_run_str P _ L V self a v top (with_meta top t d));
      [| done | done | done | apply lookup_insert_eq
       | by rewrite with_meta_other by set_solver].
    by rewrite insert_insert_eq, with_meta_idempotent.
  - by rewrite (bind_of_Raise _ _ _ _ _
            (set_meta_info_run_other P D L V self a v top d Hv Ht Ha Hd x Htitle Hx)),
            (set_meta_info_run_other P D L V self a v top d Hv Ht Ha Hd x Htitle Hx).
Qed.
End meta_extras.

(** * The further properties on the samples *)

Lemma get_bound_or_default_witness :
  let st := volume_with journal_issue in
  volumes st !! 0 = Some (Volume.mk (Some "1000") (Some "J90") (Some 0) None) ∧
  dicts st !! 0 = Some journal_issue ∧
  ∃ x, get 0 "nonexistent" (VStr "fallback") st = (Ok x, st) ∧
       (journal_issue !! "nonexistent" = Some x ∨
        (journal_issue !! "nonexistent" = None ∧ x = VStr "fallback")).
Proof.
  cbv zeta. split; [vm_compute; reflexivity|]. split; [vm_compute; reflexivity|].
  apply (get_bound_or_default (volume_with journal_issue) 0
           (Volume.mk (Some "1000") (Some "J90") (Some 0) None) 0 journal_issue
           "nonexistent" (VStr "fallback"));
    vm_compute; reflexivity.
Defined.

Lemma url_of_constructed_volume_witness :
  Volume_new (H := sample_collaborators) 0 tt tt sample_store
  = (Ok 0, workshop_volume_store) ∧
  ∃ i, full_id 0 workshop_volume_store = (Ok i, workshop_volume_store) ∧
       get 0 "url" VNone workshop_volume_store
       = (Ok (VStr (ANTHOLOGY_URL_format (Collaborators := sample_collaborators) i)),
          workshop_volume_store).
Proof.
  split; [vm_compute; reflexivity|].
  apply (@url_of_constructed_volume sample_collaborators sample_unicode sample_store
           workshop_volume_store 0 tt tt 0 VNone).
  vm_compute; reflexivity.
Defined.

Lemma venues_and_sigs_of_constructed_volume_witness :
  let p := Paper.mk "1000" "W15" 0 None in
  let st' := snd (Volume_new (H := observant_collaborators) 0 tt tt sample_store) in
  papers sample_store !! 0 = Some p ∧
  dicts sample_store !! 0 = Some workshop_front_matter ∧
  Volume_new (H := observant_collaborators) 0 tt tt sample_store = (Ok 0, st') ∧
  seen_by_register (store_at_register (H := observant_collaborators) sample_store p workshop_front_matter "W15-10") 0
  = VCodes ["W15"; "1000"; "no content"; "url"; "editor"; "title"] ∧
  ∃ i a,
    let sr := store_at_register (H := observant_collaborators) sample_store p workshop_front_matter i in
    get 0 "venues" VNone st' = (Ok (seen_by_register sr 0), st') ∧
    get 0 "sigs" VNone st' = (Ok (VCodes ["W15-1000"]), st') ∧
    volumes sample_store !! 0 = None ∧
    dicts sample_store !! a = None ∧
    volumes sr !! 0 = Some (Volume.mk (Some "1000") (Some "W15") (Some a) None) ∧
    dicts sr !! a
    = Some (<["url" := VStr ("https://www.aclweb.org/anthology/" ++ i)]>
              (inherited workshop_front_matter)) ∧
    full_id 0 sr = (Ok i, sr) ∧
    full_id 0 st' = (Ok i, st') ∧
    papers sr = papers sample_store ∧
    lists sr = lists sample_store ∧
    (∀ o, o ≠ 0 → volumes sr !! o = volumes sample_store !! o) ∧
    (∀ b, b ≠ a → dicts sr !! b = dicts sample_store !! b).
Proof.
  cbv zeta. split; [vm_compute; reflexivity|]. split; [vm_compute; reflexivity|].
  split; [vm_compute; reflexivity|]. split; [vm_compute; reflexivity|].
  apply (@venues_and_sigs_of_constructed_volume observant_collaborators sample_unicode
           sample_store _ 0 tt tt 0 (Paper.mk "1000" "W15" 0 None)
           workshop_front_matter VNone);
    vm_compute; reflexivity.
Defined.

Lemma other_attributes_carried_over_witness :
  paper_attrib_of sample_store 0 = Some workshop_front_matter ∧
  Volume_new (H := sample_collaborators) 0 tt tt sample_store
  = (Ok 0, workshop_volume_store) ∧
  ∃ d', attrib_of workshop_volume_store 0 = Some d' ∧
        d' !! "title" = workshop_front_matter !! "title" ∧
        (∀ k, k ∉ ["author"; "editor"; "revision"; "erratum"; "pages";
                   "url"; "venues"; "sigs";
                   "meta_journal_title"; "meta_volume"; "meta_issue"] →
              d' !! k = workshop_front_matter !! k) ∧
        (workshop_front_matter !! "author" = None →
         d' !! "editor" = workshop_front_matter !! "editor").
Proof.
  split; [vm_compute; reflexivity|]. split; [vm_compute; reflexivity|].
  apply (@other_attributes_carried_over sample_collaborators sample_unicode sample_store
           workshop_volume_store 0 tt tt 0 workshop_front_matter);
    vm_compute; reflexivity.
Defined.

Lemma get_title_of_constructed_volume_witness :
  paper_attrib_of sample_store 0 = Some workshop_front_matter ∧
  Volume_new (H := sample_collaborators) 0 tt tt sample_store
  = (Ok 0, workshop_volume_store) ∧
  get_title sample_formatter 0 "xml" workshop_volume_store
  = (Ok (sample_formatter (default VNone (workshop_front_matter !! "xml_title")) "xml"),
     workshop_volume_store).
Proof.
  split; [vm_compute; reflexivity|]. split; [vm_compute; reflexivity|].
  apply (@get_title_of_constructed_volume sample_collaborators sample_unicode sample_formatter
           sample_store workshop_volume_store 0 tt tt 0 workshop_front_matter "xml");
    vm_compute; reflexivity.
Defined.

Lemma construction_returns_iff_witness :
  let p := Paper.mk "1000" "W15" 0 None in
  papers sample_store !! 0 = Some p ∧
  dicts sample_store !! 0 = Some workshop_front_matter ∧
  ((∃ self st', Volume_new (H := sample_collaborators) 0 tt tt sample_store
                = (Ok self, st')) ↔
   Paper.top_level_id p ≠ "" ∧
   (starts_with_W (Paper.top_level_id p) = true ∨ Paper.paper_id p ≠ "") ∧
   (∃ t, workshop_front_matter !! "title" = Some (VStr t)) ∧
   (starts_with_J_or_Q (Paper.top_level_id p) = true ∨
    Paper.parent_volume_id p = None)).
Proof.
  cbv zeta. split; [vm_compute; reflexivity|]. split; [vm_compute; reflexivity|].
  apply (@construction_returns_iff sample_collaborators sample_unicode sample_store 0 tt tt
           (Paper.mk "1000" "W15" 0 None) workshop_front_matter);
    vm_compute; reflexivity.
Defined.

Lemma construction_touches_only_front_matter_witness :
  let p := Paper.mk "1000" "W15" 0 None in
  papers sample_store !! 0 = Some p ∧
  dicts sample_store !! 0 = Some workshop_front_matter ∧
  Volume_new (H := sample_collaborators) 0 tt tt sample_store
  = (Ok 0, workshop_volume_store) ∧
  (∀ l, l ∈ dom (volumes sample_store) →
        volumes workshop_volume_store !! l = volumes sample_store !! l) ∧
  (∀ l, l ∈ dom (lists sample_store) →
        lists workshop_volume_store !! l = lists sample_store !! l) ∧
  (∀ l, l ≠ 0 → papers workshop_volume_store !! l = papers sample_store !! l) ∧
  (∃ x, papers workshop_volume_store !! 0 = Some (Paper.set_parent_volume_id p x)) ∧
  ((∀ self, Ok 0 ≠ Ok self) ∨ starts_with_J_or_Q (Paper.top_level_id p) = true →
   papers workshop_volume_store = papers sample_store).
Proof.
  cbv zeta. split; [vm_compute; reflexivity|]. split; [vm_compute; reflexivity|].
  split; [vm_compute; reflexivity|].
  apply (@construction_touches_only_front_matter sample_collaborators sample_unicode sample_store
           0 tt tt (Paper.mk "1000" "W15" 0 None) workshop_front_matter
           (Ok 0) workshop_volume_store);
    vm_compute; reflexivity.
Defined.

Lemma front_matter_seeds_one_volume_witness :
  let p := Paper.mk "1000" "W15" 0 None in
  papers sample_store !! 0 = Some p ∧
  starts_with_J_or_Q (Paper.top_level_id p) = false ∧
  Volume_new (H := sample_collaborators) 0 tt tt sample_store
  = (Ok 0, workshop_volume_store) ∧
  ∃ st'', Volume_new (H := sample_collaborators) 0 tt tt workshop_volume_store
          = (Raise (NameError "log"), st'') ∧
          parent_of st'' 0 = parent_of workshop_volume_store 0 ∧
          ∃ i, full_id 0 st'' = (Ok i, st'') ∧
               parent_of st'' 0 = Some (Some i).
Proof.
  cbv zeta. split; [vm_compute; reflexivity|]. split; [vm_compute; reflexivity|].
  split; [vm_compute; reflexivity|].
  apply (@front_matter_seeds_one_volume sample_collaborators sample_unicode sample_store
           workshop_volume_store 0 tt tt 0 tt tt (Paper.mk "1000" "W15" 0 None));
    vm_compute; reflexivity.
Defined.

Lemma paper_ids_in_order_witness :
  content_of free_paper_store 0 = Some [0] ∧
  (∀ l, l ∈ [0] → is_Some (papers free_paper_store !! l)) ∧
  ∃ ids, paper_ids (H := sample_collaborators) 0 free_paper_store
         = (Ok ids, free_paper_store) ∧
         length ids = length [0] ∧
         ∀ k l, [0] !! k = Some l →
                ∃ p, papers free_paper_store !! l = Some p ∧
                     ids !! k
                     = Some (Paper_full_id (Collaborators := sample_collaborators) p).
Proof.
  assert (Hall : ∀ l, l ∈ [0] → is_Some (papers free_paper_store !! l)).
  { intros l Hl. apply list_elem_of_singleton in Hl as ->.
    vm_compute. eexists. reflexivity. }
  split; [vm_compute; reflexivity|]. split; [exact Hall|].
  apply (@paper_ids_in_order sample_collaborators free_paper_store 0 [0]);
    [vm_compute; reflexivity | exact Hall].
Defined.

Lemma paper_ids_after_append_witness :
  content_of free_paper_store 0 = Some [0] ∧
  (1 ∉ [0]) ∧
  paper_ids (H := sample_collaborators) 0 free_paper_store
  = (Ok ["P19-1000"], free_paper_store) ∧
  append (H := sample_collaborators) 0 1 free_paper_store = (Ok tt, appended_store) ∧
  ∃ p', papers appended_store !! 1 = Some p' ∧
        paper_ids (H := sample_collaborators) 0 appended_store
        = (Ok (["P19-1000"]
               ++ [Paper_full_id (Collaborators := sample_collaborators) p'])%list,
           appended_store).
Proof.
  assert (Hnotin : 1 ∉ [0]).
  { intros Hin. apply list_elem_of_singleton in Hin. discriminate. }
  split; [vm_compute; reflexivity|]. split; [exact Hnotin|].
  split; [vm_compute; reflexivity|]. split; [vm_compute; reflexivity|].
  apply (@paper_ids_after_append sample_collaborators free_paper_store appended_store
           0 1 [0] ["P19-1000"]);
    [vm_compute; reflexivity | exact Hnotin | vm_compute; reflexivity
     | vm_compute; reflexivity].
Defined.

Lemma append_changes_no_volume_witness :
  append (H := sample_collaborators) 0 1 free_paper_store = (Ok tt, appended_store) ∧
  only_touches 1 free_paper_store appended_store ∧
  ∀ w, fst (full_id w appended_store) = fst (full_id w free_paper_store).
Proof.
  split; [vm_compute; reflexivity|].
  apply (@append_changes_no_volume sample_collaborators free_paper_store 0 1
           (Ok tt) appended_store).
  vm_compute; reflexivity.
Defined.

Lemma paper_appended_once_witness :
  let v := Volume.mk (Some "1000") (Some "P19") (Some 2) (Some 0) in
  append (H := sample_collaborators) 0 1 free_paper_store = (Ok tt, appended_store) ∧
  volumes appended_store !! 0 = Some v ∧
  lists appended_store !! 0 = Some [0; 1] ∧
  ∃ st'' i,
    append (H := sample_collaborators) 0 1 appended_store
    = (Raise (NameError "log"), st'') ∧
    content_of st'' 0 = Some ([0; 1] ++ [1])%list ∧
    full_id 0 st'' = (Ok i, st'') ∧
    parent_of st'' 1 = Some (Some i).
Proof.
  cbv zeta. split; [vm_compute; reflexivity|]. split; [vm_compute; reflexivity|].
  split; [vm_compute; reflexivity|].
  apply (@paper_appended_once sample_collaborators free_paper_store appended_store
           0 1 0 (Volume.mk (Some "1000") (Some "P19") (Some 2) (Some 0)) 0 [0; 1]);
    vm_compute; reflexivity.
Defined.

Lemma append_keeps_ownership_witness :
  owns free_paper_store 0 "P19-1" ∧
  append (H := sample_collaborators) 0 1 free_paper_store = (Ok tt, appended_store) ∧
  owns appended_store 0 "P19-1" ∧
  ∃ ps, content_of free_paper_store 0 = Some ps ∧
        content_of appended_store 0 = Some (ps ++ [1])%list.
Proof.
  assert (Howns : owns free_paper_store 0 "P19-1").
  { split; [vm_compute; reflexivity|]. exists [0].
    split; [vm_compute; reflexivity|]. split; [apply NoDup_singleton|].
    intros l Hl. apply list_elem_of_singleton in Hl as ->. vm_compute. reflexivity. }
  split; [exact Howns|]. split; [vm_compute; reflexivity|].
  apply (@append_keeps_ownership sample_collaborators free_paper_store appended_store
           0 1 "P19-1"); [exact Howns | vm_compute; reflexivity].
Defined.

Lemma journal_title_always_set_witness :
  let st := volume_with journal_issue in
  let t := "Computational Linguistics, Volume 16, Number 3-4" in
  volumes st !! 0 = Some (Volume.mk (Some "1000") (Some "J90") (Some 0) None) ∧
  dicts st !! 0 = Some journal_issue ∧
  journal_issue !! "title" = Some (VStr t) ∧
  ∃ st' d',
    _set_meta_info (H := sample_collaborators) 0 st = (Ok tt, st') ∧
    attrib_of st' 0 = Some d' ∧
    d' !! "meta_journal_title"
    = Some (get_journal_title (Collaborators := sample_collaborators) "J90" (VStr t)) ∧
    (∀ k, k ∉ ["meta_journal_title"; "meta_volume"; "meta_issue"] →
          d' !! k = journal_issue !! k) ∧
    (∀ l, l ≠ 0 → dicts st' !! l = dicts st !! l) ∧
    papers st' = papers st ∧ lists st' = lists st ∧ volumes st' = volumes st.
Proof.
  cbv zeta. split; [vm_compute; reflexivity|]. split; [vm_compute; reflexivity|].
  split; [vm_compute; reflexivity|].
  apply (@journal_title_always_set sample_collaborators sample_unicode (volume_with journal_issue) 0
           (Volume.mk (Some "1000") (Some "J90") (Some 0) None) "J90" 0
           journal_issue "Computational Linguistics, Volume 16, Number 3-4");
    vm_compute; reflexivity.
Defined.

Lemma set_meta_info_twice_witness :
  let st := volume_with journal_issue in
  volumes st !! 0 = Some (Volume.mk (Some "1000") (Some "J90") (Some 0) None) ∧
  dicts st !! 0 = Some journal_issue ∧
  bind (_set_meta_info (H := sample_collaborators) 0)
       (fun _ => _set_meta_info (H := sample_collaborators) 0) st
  = _set_meta_info (H := sample_collaborators) 0 st.
Proof.
  cbv zeta. split; [vm_compute; reflexivity|]. split; [vm_compute; reflexivity|].
  apply (@set_meta_info_twice sample_collaborators sample_unicode (volume_with journal_issue) 0
           (Volume.mk (Some "1000") (Some "J90") (Some 0) None) "J90" 0 journal_issue);
    vm_compute; reflexivity.
Defined.
